(** * Number Seeker: the encrypted-guess round trip of [GameApp]

    A shallow embedding of the React component [GameApp]
    (refresh of the player data, join, guess and decrypt handlers) together
    with the JavaScript primitives its validation relies on
    ([String.prototype.trim], [Number], [Number.isInteger]).

    Layout:
    - module [JS]: strings as UTF-16 code units, IEEE-754 doubles as exact
      dyadic values, the [StringToNumber] conversion;
    - the external collaborators, the component state and a small free
      monad for asynchronous handlers (state updates, external calls,
      exceptions);
    - the component: its handlers and the [disabled] attributes of its
      buttons;
    - handlers in flight: interleaved execution of pending handlers;
    - the vocabulary of the statements, then the lemmas and theorems. *)

From Stdlib Require Import ZArith List String Ascii Bool Lia.
Import ListNotations.

Local Open Scope Z_scope.

(* ================================================================== *)
(** ** JavaScript values *)

Module JS.

(** A JavaScript string is a sequence of UTF-16 code units. *)
Definition jsstr := list N.

(** An ASCII literal as a JavaScript string. *)
Definition lit (s : string) : jsstr :=
  map N_of_ascii (list_ascii_of_string s).

(** A Number is an IEEE-754 binary64 value.  A finite value is kept
    exactly, as [(-1)^neg * m * 2^e], in the normal form where [m] is odd
    (or [m = 0] and [e = 0]); so two finite Numbers are equal in JavaScript
    exactly when they are equal here, up to the sign of zero. *)
Inductive number :=
| NaN
| Infinity (neg : bool)
| Finite (neg : bool) (m : Z) (e : Z).

(** Strip the trailing zero bits of a mantissa. *)
Fixpoint normalize_pos (p : positive) (e : Z) : positive * Z :=
  match p with
  | xO p' => normalize_pos p' (e + 1)
  | _ => (p, e)
  end.

Definition mk_finite (neg : bool) (m e : Z) : number :=
  match m with
  | Zpos p => let '(p', e') := normalize_pos p e in Finite neg (Zpos p') e'
  | _ => Finite neg 0 0
  end.

(** [floor (log2 (n / d))] for positive [n], [d]. *)
Definition floor_log2_ratio (n d : Z) : Z :=
  let l := Z.log2 n - Z.log2 d in
  let ge := if 0 <=? l then d * 2 ^ l <=? n else d <=? n * 2 ^ (- l) in
  if ge then l else l - 1.

(** Round the positive rational [n / d] to the nearest binary64 value,
    ties to even: 53 bits of mantissa, exponents no smaller than -1074
    (gradual underflow), overflow to infinity at [2^1024]. *)
Definition round_double (neg : bool) (n d : Z) : number :=
  let e := Z.max (floor_log2_ratio n d - 52) (-1074) in
  let n' := if 0 <=? e then n else n * 2 ^ (- e) in
  let d' := if 0 <=? e then d * 2 ^ e else d in
  let m := n' / d' in
  let r := n' mod d' in
  let up := (d' <? 2 * r) || ((d' =? 2 * r) && Z.odd m) in
  let m' := if up then m + 1 else m in
  if (971 <? e) || ((e =? 971) && (m' =? 2 ^ 53))
  then Infinity neg
  else mk_finite neg m' e.

(** The Number value of a mathematical rational [n / d], [0 <= n], [0 < d]. *)
Definition number_of_ratio (neg : bool) (n d : Z) : number :=
  if n =? 0 then Finite neg 0 0 else round_double neg n d.

(** [Number(b)] for a BigInt [b]. *)
Definition Number_of_bigint (b : Z) : number :=
  if b =? 0 then Finite false 0 0
  else round_double (b <? 0) (Z.abs b) 1.

(** The Number of an integer literal of the source text. *)
Definition of_int (z : Z) : number := Number_of_bigint z.

(** [Number.isInteger]. *)
Definition isInteger (x : number) : bool :=
  match x with
  | Finite _ _ e => 0 <=? e
  | _ => false
  end.

(** The integer an integral Number denotes. *)
Definition to_int (x : number) : option Z :=
  match x with
  | Finite neg m e =>
      if 0 <=? e then Some ((if neg then -1 else 1) * (m * 2 ^ e)) else None
  | _ => None
  end.

(** [x < k] and [x > k] against an integer [k]; both are false on NaN. *)
Definition lt_int (x : number) (k : Z) : bool :=
  match x with
  | NaN => false
  | Infinity neg => neg
  | Finite neg m e =>
      let s := if neg then -1 else 1 in
      if 0 <=? e then s * (m * 2 ^ e) <? k else s * m <? k * 2 ^ (- e)
  end.

Definition gt_int (x : number) (k : Z) : bool :=
  match x with
  | NaN => false
  | Infinity neg => negb neg
  | Finite neg m e =>
      let s := if neg then -1 else 1 in
      if 0 <=? e then k <? s * (m * 2 ^ e) else k * 2 ^ (- e) <? s * m
  end.

(** *** White space and [trim] *)

(** The code units matched by WhiteSpace and LineTerminator: TAB, LF, VT,
    FF, CR, SP, NBSP, the BOM, the Unicode space separators and the line
    and paragraph separators. *)
Definition is_white (c : N) : bool :=
  let c := Z.of_N c in
  ((9 <=? c) && (c <=? 13)) || (c =? 32) || (c =? 160) || (c =? 5760)
  || ((8192 <=? c) && (c <=? 8202)) || (c =? 8232) || (c =? 8233)
  || (c =? 8239) || (c =? 8287) || (c =? 12288) || (c =? 65279).

Fixpoint trimStart (s : jsstr) : jsstr :=
  match s with
  | c :: s' => if is_white c then trimStart s' else s
  | [] => []
  end.

Definition trimEnd (s : jsstr) : jsstr := rev (trimStart (rev s)).

(** [String.prototype.trim]. *)
Definition trim (s : jsstr) : jsstr := trimEnd (trimStart s).

(** *** StringToNumber *)

Definition digit_of (base : Z) (c : N) : option Z :=
  let c := Z.of_N c in
  let v := if (48 <=? c) && (c <=? 57) then c - 48
           else if (97 <=? c) && (c <=? 102) then c - 87
           else if (65 <=? c) && (c <=? 70) then c - 55
           else 99 in
  if v <? base then Some v else None.

(** The longest prefix of digits of [s] in [base]: the value accumulated
    on [acc], the number of digits read, the rest of the string. *)
Fixpoint read_digits (base : Z) (s : jsstr) (acc : Z) (len : Z)
  : Z * Z * jsstr :=
  match s with
  | c :: s' =>
      match digit_of base c with
      | Some d => read_digits base s' (acc * base + d) (len + 1)
      | None => (acc, len, s)
      end
  | [] => (acc, len, [])
  end.

(** NonDecimalIntegerLiteral without its two-character prefix: one digit
    at least, and nothing after the digits. *)
Definition non_decimal (base : Z) (s : jsstr) : number :=
  match read_digits base s 0 0 with
  | (v, len, []) => if 0 <? len then number_of_ratio false v 1 else NaN
  | _ => NaN
  end.

(** ExponentPart, optional: the exponent and whether the text ends there. *)
Definition read_exponent (s : jsstr) : option Z :=
  match s with
  | [] => Some 0
  | c :: s' =>
      if (c =? 101)%N || (c =? 69)%N then
        let '(sg, s'') :=
          match s' with
          | d :: t => if (d =? 43)%N then (1, t)
                      else if (d =? 45)%N then (-1, t) else (1, s')
          | [] => (1, s')
          end in
        match read_digits 10 s'' 0 0 with
        | (v, len, []) => if 0 <? len then Some (sg * v) else None
        | _ => None
        end
      else None
  end.

(** The Number of the mathematical value [v * 10^x]. *)
Definition scale10 (neg : bool) (v x : Z) : number :=
  if 0 <=? x then number_of_ratio neg (v * 10 ^ x) 1
  else number_of_ratio neg v (10 ^ (- x)).

(** StrUnsignedDecimalLiteral other than [Infinity]. *)
Definition unsigned_decimal (neg : bool) (s : jsstr) : number :=
  let '(ip, ilen, rest) := read_digits 10 s 0 0 in
  let '(v, flen, rest') :=
    match rest with
    | c :: t => if (c =? 46)%N then read_digits 10 t ip 0 else (ip, 0, rest)
    | [] => (ip, 0, rest)
    end in
  let has_dot := match rest with c :: _ => (c =? 46)%N | [] => false end in
  if (0 <? ilen) || (has_dot && (0 <? flen)) then
    match read_exponent rest' with
    | Some x => scale10 neg v (x - flen)
    | None => NaN
    end
  else NaN.

Definition str_Infinity : jsstr := lit "Infinity".

Definition jsstr_eqb (a b : jsstr) : bool :=
  if list_eq_dec N.eq_dec a b then true else false.

Definition str_decimal (neg : bool) (s : jsstr) : number :=
  if jsstr_eqb s str_Infinity then Infinity neg else unsigned_decimal neg s.

(** StrNumericLiteral: a binary, octal or hexadecimal integer (unsigned),
    or a decimal literal with an optional sign. *)
Definition str_numeric (s : jsstr) : number :=
  match s with
  | 48%N :: 120%N :: t | 48%N :: 88%N :: t => non_decimal 16 t
  | 48%N :: 111%N :: t | 48%N :: 79%N :: t => non_decimal 8 t
  | 48%N :: 98%N :: t | 48%N :: 66%N :: t => non_decimal 2 t
  | 43%N :: t => str_decimal false t
  | 45%N :: t => str_decimal true t
  | _ => str_decimal false s
  end.

(** [Number(s)] for a string [s]: white space on both sides is skipped,
    the empty text is [+0], text that is no StrNumericLiteral is NaN.
    (A literal of more than 20 significant digits is rounded exactly, as
    the engines do.) *)
Definition Number (s : jsstr) : number :=
  match trim s with
  | [] => Finite false 0 0
  | t => str_numeric t
  end.

(** Truthiness of a string and of a nullable string. *)
Definition truthy (s : string) : bool :=
  match s with EmptyString => false | _ => true end.

Definition truthy_opt (s : option string) : bool :=
  match s with Some s => truthy s | None => false end.

End JS.

Import JS.

(* ================================================================== *)
(** ** External collaborators *)

(** What a handler can throw or a promise reject with: an [Error] object
    with its message, or some other value. *)
Inductive JSError :=
| ErrorObj (message : string)
| NotAnError.

(** [err instanceof Error ? err.message : fallback]. *)
Definition message_or (err : JSError) (fallback : string) : string :=
  match err with
  | ErrorObj m => m
  | NotAnError => fallback
  end.

Inductive Outcome (R : Type) :=
| Resolved (r : R)
| Rejected (e : JSError).
Arguments Resolved {R} r.
Arguments Rejected {R} e.

(** The object [createEIP712] returns, as far as it is used. *)
Record EIP712 := {
  domain : string;
  types_UserDecryptRequestVerification : string;
  message : string
}.

(** The calls that leave the component: the three contract views read
    through the public client, the signer promise of [useEthersSigner], the
    cipher engine instance, the clock, and the two contract transactions.
    [EncryptInput] stands for
    [createEncryptedInput(contract, account).add32(value).encrypt()]. *)
Inductive Call :=
| ReadHasJoined (contract account : string)
| ReadGetRound (contract account : string)
| ReadGetLatestResult (contract account : string)
| ResolveSigner
| GenerateKeypair
| DateNow
| CreateEIP712 (publicKey : string) (contracts : list string)
    (startTimestamp : Z) (durationDays : string)
| SignTypedData (payload : EIP712)
| UserDecrypt (handle contract privateKey publicKey signature : string)
    (contracts : list string) (account : string)
    (startTimestamp : Z) (durationDays : string)
| EncryptInput (contract account : string) (value : number)
| SendJoinGame (contract : string)
| SendSubmitGuess (contract : string) (handle : option string) (proof : string)
| WaitTx (tx : string).

(** What each call answers.  A signer promise resolves to a signer
    ([true]) or to [undefined] ([false]); the decryption authority answers
    with a record from handles to plaintext strings, kept in the order
    [Object.values] enumerates it, or with nothing ([None]). *)
Definition resp (c : Call) : Type :=
  match c with
  | ReadHasJoined _ _ => bool
  | ReadGetRound _ _ => Z
  | ReadGetLatestResult _ _ => option string
  | ResolveSigner => bool
  | GenerateKeypair => (string * string)%type
  | DateNow => Z
  | CreateEIP712 _ _ _ _ => EIP712
  | SignTypedData _ => string
  | UserDecrypt _ _ _ _ _ _ _ _ _ => option (list (string * jsstr))
  | EncryptInput _ _ _ => (list string * string)%type
  | SendJoinGame _ => string
  | SendSubmitGuess _ _ _ => string
  | WaitTx _ => unit
  end.

(** The calls the handlers [await]; the others return at once. *)
Definition is_async (c : Call) : bool :=
  match c with
  | GenerateKeypair | DateNow | CreateEIP712 _ _ _ _ => false
  | _ => true
  end.

Definition is_submitGuess (c : Call) : bool :=
  match c with SendSubmitGuess _ _ _ => true | _ => false end.

Definition is_joinGame (c : Call) : bool :=
  match c with SendJoinGame _ => true | _ => false end.

Definition is_userDecrypt (c : Call) : bool :=
  match c with UserDecrypt _ _ _ _ _ _ _ _ _ => true | _ => false end.

(** An answer for every call. *)
Definition Oracle := forall c : Call, Outcome (resp c).

(* ================================================================== *)
(** ** The component state *)

(** The [useState] cells of [GameApp]. *)
Record State := {
  hasJoined : bool;
  round : number;
  guessValue : jsstr;
  encryptedResult : option string;
  lastDecryptedCipher : option string;
  feedbackCode : option number;
  isJoining : bool;
  isGuessing : bool;
  isDecrypting : bool;
  statusMessage : option string
}.

(** The initial values of the cells. *)
Definition initial : State := {|
  hasJoined := false;
  round := of_int 0;
  guessValue := [];
  encryptedResult := None;
  lastDecryptedCipher := None;
  feedbackCode := None;
  isJoining := false;
  isGuessing := false;
  isDecrypting := false;
  statusMessage := None
|}.

(** What the hooks and the configuration give the component: the
    connected account, whether a public client and a cipher engine instance
    exist, the engine's loading flag, and the configured contract address
    (empty when none is configured). *)
Record Env := {
  address : option string;
  publicClient : bool;
  instance : bool;
  isZamaLoading : bool;
  CONTRACT_ADDRESS : string
}.

Definition contractAddress (env : Env) : string := CONTRACT_ADDRESS env.

Definition isContractConfigured (env : Env) : bool :=
  truthy (contractAddress env) && (0 <? Z.of_nat (String.length (contractAddress env))).

(** What the component does that can be observed from outside. *)
Inductive Event :=
| ERequest (c : Call)
| EStatus (msg : string)
| EConsoleError (label : string) (err : JSError).

Definition is_request (p : Call -> bool) (ev : Event) : bool :=
  match ev with ERequest c => p c | _ => false end.

Definition is_status (ev : Event) : bool :=
  match ev with EStatus _ => true | _ => false end.

Definition is_status_of (m : string) (ev : Event) : bool :=
  match ev with EStatus m' => String.eqb m m' | _ => false end.

(** *** The state setters *)

Definition with_hasJoined (v : bool) (s : State) : State :=
  {| hasJoined := v; round := round s; guessValue := guessValue s;
     encryptedResult := encryptedResult s;
     lastDecryptedCipher := lastDecryptedCipher s;
     feedbackCode := feedbackCode s; isJoining := isJoining s;
     isGuessing := isGuessing s; isDecrypting := isDecrypting s;
     statusMessage := statusMessage s |}.

Definition with_round (v : number) (s : State) : State :=
  {| hasJoined := hasJoined s; round := v; guessValue := guessValue s;
     encryptedResult := encryptedResult s;
     lastDecryptedCipher := lastDecryptedCipher s;
     feedbackCode := feedbackCode s; isJoining := isJoining s;
     isGuessing := isGuessing s; isDecrypting := isDecrypting s;
     statusMessage := statusMessage s |}.

Definition with_guessValue (v : jsstr) (s : State) : State :=
  {| hasJoined := hasJoined s; round := round s; guessValue := v;
     encryptedResult := encryptedResult s;
     lastDecryptedCipher := lastDecryptedCipher s;
     feedbackCode := feedbackCode s; isJoining := isJoining s;
     isGuessing := isGuessing s; isDecrypting := isDecrypting s;
     statusMessage := statusMessage s |}.

Definition with_encryptedResult (v : option string) (s : State) : State :=
  {| hasJoined := hasJoined s; round := round s; guessValue := guessValue s;
     encryptedResult := v;
     lastDecryptedCipher := lastDecryptedCipher s;
     feedbackCode := feedbackCode s; isJoining := isJoining s;
     isGuessing := isGuessing s; isDecrypting := isDecrypting s;
     statusMessage := statusMessage s |}.

Definition with_lastDecryptedCipher (v : option string) (s : State) : State :=
  {| hasJoined := hasJoined s; round := round s; guessValue := guessValue s;
     encryptedResult := encryptedResult s;
     lastDecryptedCipher := v;
     feedbackCode := feedbackCode s; isJoining := isJoining s;
     isGuessing := isGuessing s; isDecrypting := isDecrypting s;
     statusMessage := statusMessage s |}.

Definition with_feedbackCode (v : option number) (s : State) : State :=
  {| hasJoined := hasJoined s; round := round s; guessValue := guessValue s;
     encryptedResult := encryptedResult s;
     lastDecryptedCipher := lastDecryptedCipher s;
     feedbackCode := v; isJoining := isJoining s;
     isGuessing := isGuessing s; isDecrypting := isDecrypting s;
     statusMessage := statusMessage s |}.

Definition with_isJoining (v : bool) (s : State) : State :=
  {| hasJoined := hasJoined s; round := round s; guessValue := guessValue s;
     encryptedResult := encryptedResult s;
     lastDecryptedCipher := lastDecryptedCipher s;
     feedbackCode := feedbackCode s; isJoining := v;
     isGuessing := isGuessing s; isDecrypting := isDecrypting s;
     statusMessage := statusMessage s |}.

Definition with_isGuessing (v : bool) (s : State) : State :=
  {| hasJoined := hasJoined s; round := round s; guessValue := guessValue s;
     encryptedResult := encryptedResult s;
     lastDecryptedCipher := lastDecryptedCipher s;
     feedbackCode := feedbackCode s; isJoining := isJoining s;
     isGuessing := v; isDecrypting := isDecrypting s;
     statusMessage := statusMessage s |}.

Definition with_isDecrypting (v : bool) (s : State) : State :=
  {| hasJoined := hasJoined s; round := round s; guessValue := guessValue s;
     encryptedResult := encryptedResult s;
     lastDecryptedCipher := lastDecryptedCipher s;
     feedbackCode := feedbackCode s; isJoining := isJoining s;
     isGuessing := isGuessing s; isDecrypting := v;
     statusMessage := statusMessage s |}.

Definition with_statusMessage (v : option string) (s : State) : State :=
  {| hasJoined := hasJoined s; round := round s; guessValue := guessValue s;
     encryptedResult := encryptedResult s;
     lastDecryptedCipher := lastDecryptedCipher s;
     feedbackCode := feedbackCode s; isJoining := isJoining s;
     isGuessing := isGuessing s; isDecrypting := isDecrypting s;
     statusMessage := v |}.

(* ================================================================== *)
(** ** Asynchronous handlers *)

(** A handler is a tree of state updates and external calls.  [Act] is
    a call of a state setter: it acts on the state the component has when
    it runs and may show a status message.  [Ext] is a call that leaves
    the component; the handler goes on with its outcome.  What a handler
    reads of the state it reads from the render it was created in, so a
    handler that reads the state is a function of that state. *)
Inductive Prog (A : Type) : Type :=
| Ret (a : A)
| Throw (e : JSError)
| Act (f : State -> State * list Event) (k : Prog A)
| Ext (c : Call) (k : Outcome (resp c) -> Prog A).
Arguments Ret {A} a.
Arguments Throw {A} e.
Arguments Act {A} f k.
Arguments Ext {A} c k.

Fixpoint bind {A B} (p : Prog A) (q : A -> Prog B) : Prog B :=
  match p with
  | Ret a => q a
  | Throw e => Throw e
  | Act f k => Act f (bind k q)
  | Ext c k => Ext c (fun o => bind (k o) q)
  end.

Notation "x <- p ;; q" := (bind p (fun x => q))
  (at level 61, p at next level, right associativity).
Notation "' pat <- p ;; q" := (bind p (fun x => match x with pat => q end))
  (at level 61, pat pattern, p at next level, right associativity).
Notation "p ;; q" := (bind p (fun _ => q))
  (at level 61, right associativity).

(** [try { p } catch (err) { h err }]. *)
Fixpoint try_catch {A} (p : Prog A) (h : JSError -> Prog A) : Prog A :=
  match p with
  | Ret a => Ret a
  | Throw e => h e
  | Act f k => Act f (try_catch k h)
  | Ext c k => Ext c (fun o => try_catch (k o) h)
  end.

(** [try { p } finally { q }]. *)
Fixpoint finally {A} (p : Prog A) (q : Prog unit) : Prog A :=
  match p with
  | Ret a => q ;; Ret a
  | Throw e => q ;; Throw e
  | Act f k => Act f (finally k q)
  | Ext c k => Ext c (fun o => finally (k o) q)
  end.

(** A call whose failure is thrown: an [await], or a plain call. *)
Definition call (c : Call) : Prog (resp c) :=
  Ext c (fun o => match o with Resolved r => Ret r | Rejected e => Throw e end).

(** [await Promise.all([a, b, c])]: the three calls are made, then all
    three must have resolved.  The handler neither reads nor writes the
    state between the calls, so taking their answers one after the other
    changes nothing that can be observed. *)
Definition promise_all3 (a b c : Call) : Prog (resp a * resp b * resp c) :=
  Ext a (fun oa => Ext b (fun ob => Ext c (fun oc =>
    match oa, ob, oc with
    | Resolved x, Resolved y, Resolved z => Ret (x, y, z)
    | Rejected e, _, _ => Throw e
    | _, Rejected e, _ => Throw e
    | _, _, Rejected e => Throw e
    end))).

Definition set (f : State -> State) : Prog unit :=
  Act (fun s => (f s, [])) (Ret tt).

Definition setHasJoined v := set (with_hasJoined v).
Definition setRound v := set (with_round v).
Definition setGuessValue v := set (with_guessValue v).
Definition setLastDecryptedCipher v := set (with_lastDecryptedCipher v).
Definition setFeedbackCode v := set (with_feedbackCode v).
Definition setIsJoining v := set (with_isJoining v).
Definition setIsGuessing v := set (with_isGuessing v).
Definition setIsDecrypting v := set (with_isDecrypting v).

Definition show (msg : string) (s : State) : State * list Event :=
  (with_statusMessage (Some msg) s, [EStatus msg]).

Definition setStatusMessage (msg : string) : Prog unit :=
  Act (show msg) (Ret tt).

Definition console_error (label : string) (err : JSError) : Prog unit :=
  Act (fun s => (s, [EConsoleError label err])) (Ret tt).

(** How a handler ended. *)
Inductive Completion (A : Type) :=
| Returned (a : A)
| Threw (e : JSError).
Arguments Returned {A} a.
Arguments Threw {A} e.

(** A handler run to its end, every call answered by the oracle. *)
Fixpoint run {A} (o : Oracle) (p : Prog A) (s : State)
  : Completion A * State * list Event :=
  match p with
  | Ret a => (Returned a, s, [])
  | Throw e => (Threw e, s, [])
  | Act f k =>
      let '(s1, ev) := f s in
      let '(r, s2, ev') := run o k s1 in
      (r, s2, ev ++ ev')
  | Ext c k =>
      let '(r, s1, ev) := run o (k (o c)) s in
      (r, s1, ERequest c :: ev)
  end.

Definition final {A} (x : Completion A * State * list Event) : State :=
  snd (fst x).
Definition events {A} (x : Completion A * State * list Event) : list Event :=
  snd x.
Definition completion {A} (x : Completion A * State * list Event) : Completion A :=
  fst (fst x).

(* ================================================================== *)
(** ** The component *)

Local Open Scope string_scope.
Local Open Scope list_scope.

Definition ZERO_CIPHERTEXT : string :=
  "0x0000000000000000000000000000000000000000000000000000000000000000".

Definition interpretResult (value : number) : option string :=
  match to_int value with
  | Some 1 => Some "🎉 JACKPOT! Direct hit on the target."
  | Some 2 => Some "🔥 So close! Off by a single digit."
  | Some 3 => Some "⚡ Getting warm. Two steps away from victory."
  | Some 4 => Some "❌ Off the mark. Recalculate and try again."
  | _ => None
  end.

Definition feedbackMessage (s : State) : option string :=
  match feedbackCode s with
  | Some code => interpretResult code
  | None => None
  end.

(** The status messages. *)
Definition MSG_RESULT_READY : string :=
  "🔐 Encrypted result ready. Click decrypt to reveal feedback.".
Definition MSG_DECRYPT_START : string := "🔓 Initiating decryption sequence...".
Definition MSG_NO_SIGNER : string := "Wallet signer is not available".
Definition MSG_NO_VALUE : string := "No decrypted value returned".
Definition MSG_BAD_FORMAT : string := "Unexpected decrypted format".
Definition MSG_DECODED : string := "✅ Signal decoded successfully.".
Definition MSG_DECRYPT_FAILED : string := "❌ Decryption protocol failed".
Definition MSG_AWAITING_DECRYPT : string :=
  "🔐 Data encrypted. Awaiting decryption command.".
Definition MSG_JOIN_NO_WALLET : string :=
  "⚠️ Wallet connection required to proceed.".
Definition MSG_NOT_CONFIGURED : string :=
  "⚠️ Contract node address not configured.".
Definition MSG_JOIN_START : string := "🔄 Initializing session protocol...".
Definition MSG_JOINED : string :=
  "✅ Session active. Target encrypted and ready for probing.".
Definition MSG_JOIN_FAILED : string := "❌ Mission initialization failed".
Definition MSG_GUESS_NO_WALLET : string :=
  "⚠️ Wallet connection required for probe deployment.".
Definition MSG_NOT_JOINED : string :=
  "⚠️ Initialize session before deploying probes.".
Definition MSG_INVALID_GUESS : string := "❌ Invalid input. Select digit 1-10.".
Definition MSG_ENGINE_OFFLINE : string :=
  "⚠️ Cipher engine offline. Please wait.".
Definition MSG_GUESS_START : string :=
  "🔐 Encrypting probe data and transmitting...".
Definition MSG_GUESSED : string :=
  "✅ Probe deployed. Decrypt scan results to view analysis.".
Definition MSG_GUESS_FAILED : string := "❌ Probe transmission failed".
Definition MSG_NO_DATA : string :=
  "⚠️ No encrypted data available for decryption.".

(** [a !== b] on nullable strings. *)
Definition differs (a b : option string) : bool :=
  match a, b with
  | Some x, Some y => negb (String.eqb x y)
  | None, None => false
  | _, _ => true
  end.

(** The connected account, when [address] is truthy. *)
Definition account (env : Env) : option string :=
  match address env with
  | Some a => if truthy a then Some a else None
  | None => None
  end.

(** The updater given to [setEncryptedResult] by a refresh, with the
    setter calls it makes itself; [previous] is the handle the component
    holds when the updater runs. *)
Definition updateEncryptedResult (latestResult : option string) (s : State)
  : State * list Event :=
  let previous := encryptedResult s in
  if differs previous latestResult then
    let s1 := with_lastDecryptedCipher None (with_feedbackCode None s) in
    if truthy_opt latestResult && differs latestResult (Some ZERO_CIPHERTEXT)
    then (with_encryptedResult latestResult
            (with_statusMessage (Some MSG_RESULT_READY) s1),
          [EStatus MSG_RESULT_READY])
    else (with_encryptedResult latestResult s1, [])
  else (with_encryptedResult latestResult s, []).

Definition clearPlayerData : Prog unit :=
  setHasJoined false ;;
  setRound (of_int 0%Z) ;;
  set (with_encryptedResult None) ;;
  setFeedbackCode None ;;
  setLastDecryptedCipher None.

Definition refreshPlayerData (env : Env) : Prog unit :=
  match account env with
  | Some acct =>
      if negb (publicClient env) || negb (isContractConfigured env)
      then clearPlayerData
      else
        try_catch
          ('(joined, activeRound, latestResult) <-
             promise_all3 (ReadHasJoined (contractAddress env) acct)
                          (ReadGetRound (contractAddress env) acct)
                          (ReadGetLatestResult (contractAddress env) acct) ;;
           setHasJoined joined ;;
           setRound (Number_of_bigint activeRound) ;;
           Act (updateEncryptedResult latestResult) (Ret tt) ;;
           if negb joined
           then setFeedbackCode None ;; setLastDecryptedCipher None
           else Ret tt)
          (fun err => console_error "Failed to refresh player data" err)
  | None => clearPlayerData
  end.

(** [signature.replace('0x', '')]: the first occurrence is removed. *)
Fixpoint remove_first_0x (s : string) : string :=
  match s with
  | String "0" (String "x" rest) => rest
  | String c rest => String c (remove_first_0x rest)
  | EmptyString => EmptyString
  end.

(** [response[cipher]], the record being kept as the list of its own
    entries (a handle names no member of [Object.prototype]). *)
Fixpoint lookup (key : string) (r : list (string * jsstr)) : option jsstr :=
  match r with
  | (k, v) :: r' => if String.eqb k key then Some v else lookup key r'
  | [] => None
  end.

Definition nonempty (v : option jsstr) : option jsstr :=
  match v with
  | Some (_ :: _) => v
  | _ => None
  end.

(** [(response && response[cipher]) || Object.values(response ?? {})[0]],
    [None] when the result is falsy. *)
Definition rawValue (response : option (list (string * jsstr))) (cipher : string)
  : option jsstr :=
  match response with
  | Some r =>
      match nonempty (lookup cipher r) with
      | Some v => Some v
      | None => nonempty (hd_error (map snd r))
      end
  | None => None
  end.

(** [decryptCiphertext], called from the render that showed the state [s]:
    the handler reads [isDecrypting] from that render, its setters act on
    the state the component has when they run.  The start timestamp is kept
    as the number of seconds, not as its decimal text. *)
Definition decryptCiphertext (env : Env) (s : State) (cipher : string)
  : Prog unit :=
  match account env with
  | Some acct =>
      if negb (instance env) || negb (isContractConfigured env) then Ret tt
      else if isDecrypting s then Ret tt
      else
        setIsDecrypting true ;;
        setStatusMessage MSG_DECRYPT_START ;;
        finally
          (try_catch
             ('(publicKey, privateKey) <- call GenerateKeypair ;;
              let contractAddresses := [contractAddress env] in
              now <- call DateNow ;;
              let startTimestamp := now / 1000 in
              let durationDays := "10"%string in
              eip712 <- call (CreateEIP712 publicKey contractAddresses
                                startTimestamp durationDays) ;;
              resolvedSigner <- call ResolveSigner ;;
              if negb resolvedSigner then Throw (ErrorObj MSG_NO_SIGNER)
              else
                signature <- call (SignTypedData eip712) ;;
                response <- call (UserDecrypt cipher (contractAddress env)
                                    privateKey publicKey
                                    (remove_first_0x signature)
                                    contractAddresses acct
                                    startTimestamp durationDays) ;;
                match rawValue response cipher with
                | None => Throw (ErrorObj MSG_NO_VALUE)
                | Some raw =>
                    let numeric := Number raw in
                    if negb (isInteger numeric)
                    then Throw (ErrorObj MSG_BAD_FORMAT)
                    else
                      setFeedbackCode (Some numeric) ;;
                      setLastDecryptedCipher (Some cipher) ;;
                      setStatusMessage MSG_DECODED
                end)
             (fun err =>
                console_error "Failed to decrypt result" err ;;
                setStatusMessage (message_or err MSG_DECRYPT_FAILED)))
          (setIsDecrypting false)
  | None => Ret tt
  end.

Definition handleJoin (env : Env) : Prog unit :=
  match account env with
  | None => setStatusMessage MSG_JOIN_NO_WALLET
  | Some _ =>
      if negb (isContractConfigured env)
      then setStatusMessage MSG_NOT_CONFIGURED
      else
        setIsJoining true ;;
        setStatusMessage MSG_JOIN_START ;;
        finally
          (try_catch
             (resolvedSigner <- call ResolveSigner ;;
              if negb resolvedSigner then Throw (ErrorObj MSG_NO_SIGNER)
              else
                tx <- call (SendJoinGame (contractAddress env)) ;;
                call (WaitTx tx) ;;
                setStatusMessage MSG_JOINED ;;
                setFeedbackCode None ;;
                setLastDecryptedCipher None ;;
                refreshPlayerData env)
             (fun err =>
                console_error "Join transaction failed" err ;;
                setStatusMessage (message_or err MSG_JOIN_FAILED)))
          (setIsJoining false)
  end.

(** The test on the text of the guess. *)
Definition guessNumber (s : State) : number := Number (trim (guessValue s)).

Definition invalidGuess (n : number) : bool :=
  negb (isInteger n) || lt_int n 1 || gt_int n 10.

(** [handleGuess], called from the render that showed the state [s]. *)
Definition handleGuess (env : Env) (s : State) : Prog unit :=
  match account env with
  | None => setStatusMessage MSG_GUESS_NO_WALLET
  | Some acct =>
      if negb (isContractConfigured env)
      then setStatusMessage MSG_NOT_CONFIGURED
      else if negb (hasJoined s) then setStatusMessage MSG_NOT_JOINED
      else
        let guessNumber := guessNumber s in
        if invalidGuess guessNumber then setStatusMessage MSG_INVALID_GUESS
        else if negb (instance env) then setStatusMessage MSG_ENGINE_OFFLINE
        else
          setIsGuessing true ;;
          setStatusMessage MSG_GUESS_START ;;
          finally
            (try_catch
               (resolvedSigner <- call ResolveSigner ;;
                if negb resolvedSigner then Throw (ErrorObj MSG_NO_SIGNER)
                else
                  '(handles, inputProof) <-
                     call (EncryptInput (contractAddress env) acct guessNumber) ;;
                  tx <- call (SendSubmitGuess (contractAddress env)
                                (hd_error handles) inputProof) ;;
                  call (WaitTx tx) ;;
                  setStatusMessage MSG_GUESSED ;;
                  setGuessValue [] ;;
                  refreshPlayerData env)
               (fun err =>
                  console_error "Guess transaction failed" err ;;
                  setStatusMessage (message_or err MSG_GUESS_FAILED)))
            (setIsGuessing false)
  end.

(** [manualDecrypt], called from the render that showed the state [s]. *)
Definition manualDecrypt (env : Env) (s : State) : Prog unit :=
  match encryptedResult s with
  | Some cipher =>
      if negb (truthy cipher) || String.eqb cipher ZERO_CIPHERTEXT
      then setStatusMessage MSG_NO_DATA
      else if negb (isContractConfigured env)
      then setStatusMessage MSG_NOT_CONFIGURED
      else decryptCiphertext env s cipher
  | None => setStatusMessage MSG_NO_DATA
  end.

(** The [disabled] attributes of the three buttons, as rendered from [s]. *)
Definition joinDisabled (env : Env) (s : State) : bool :=
  isJoining s || negb (truthy_opt (address env)) || isZamaLoading env
  || negb (isContractConfigured env).

Definition guessDisabled (env : Env) (s : State) : bool :=
  isGuessing s || negb (truthy_opt (address env)) || negb (hasJoined s)
  || isZamaLoading env || negb (isContractConfigured env).

Definition decryptDisabled (env : Env) (s : State) : bool :=
  isDecrypting s || negb (truthy_opt (encryptedResult s))
  || negb (differs (encryptedResult s) (Some ZERO_CIPHERTEXT))
  || negb (truthy_opt (address env)) || negb (isContractConfigured env).

(** The status effect of the component: after a render that shows a
    ciphertext not yet decrypted, the banner asks for the decryption. *)
Definition statusEffect (env : Env) (s : State) : Prog unit :=
  if negb (truthy_opt (encryptedResult s))
     || negb (differs (encryptedResult s) (Some ZERO_CIPHERTEXT))
  then Ret tt
  else if negb (truthy_opt (address env)) || negb (isContractConfigured env)
  then Ret tt
  else if differs (encryptedResult s) (lastDecryptedCipher s)
  then setStatusMessage MSG_AWAITING_DECRYPT
  else Ret tt.

(** Refreshes one after the other, each with the answers of its own. *)
Fixpoint refreshes (env : Env) (os : list Oracle) (s : State) : State :=
  match os with
  | [] => s
  | o :: os' => refreshes env os' (final (run o (refreshPlayerData env) s))
  end.

(* ================================================================== *)
(** ** Handlers in flight *)

(** The kinds of operation. *)
Inductive Op := OpRefresh | OpJoin | OpGuess | OpDecrypt | OpInput.

Definition Op_eqb (a b : Op) : bool :=
  match a, b with
  | OpRefresh, OpRefresh | OpJoin, OpJoin | OpGuess, OpGuess
  | OpDecrypt, OpDecrypt | OpInput, OpInput => true
  | _, _ => false
  end.

(** A handler waiting for the call [c] to settle. *)
Inductive Paused :=
| Paused_at (c : Call) (k : Outcome (resp c) -> Prog unit).

Definition awaited (t : Paused) : Call :=
  match t with Paused_at c _ => c end.

(** A handler run up to its next [await]: the calls that return at once
    are answered by the oracle, the first awaited call is made and the rest
    of the handler is put aside.  An exception nobody caught ends it. *)
Fixpoint advance (o : Oracle) (p : Prog unit) (s : State)
  : State * list Event * option Paused :=
  match p with
  | Ret _ | Throw _ => (s, [], None)
  | Act f k =>
      let '(s1, ev) := f s in
      let '(s2, ev', t) := advance o k s1 in
      (s2, ev ++ ev', t)
  | Ext c k =>
      if is_async c then (s, [ERequest c], Some (Paused_at c k))
      else
        let '(s1, ev, t) := advance o (k (o c)) s in
        (s1, ERequest c :: ev, t)
  end.

(** The component with its handlers in flight. *)
Record System := {
  live : State;
  pending : list (Op * Paused);
  trace : list Event
}.

Definition start (s : State) : System :=
  {| live := s; pending := []; trace := [] |}.

(** What can happen: a handler is called as a function, a button is
    clicked (a disabled button calls nothing), the text of the guess is
    edited, or the call a pending handler waits for settles. *)
Inductive Action :=
| CallRefresh
| CallJoin
| CallGuess
| CallDecrypt (cipher : string)
| CallManualDecrypt
| ClickJoin
| ClickGuess
| ClickDecrypt
| TypeGuess (v : jsstr)
| Settle (i : nat).

(** The handler an action starts, from the render of the state [s]. *)
Definition dispatch (env : Env) (a : Action) (s : State)
  : option (Op * Prog unit) :=
  match a with
  | CallRefresh => Some (OpRefresh, refreshPlayerData env)
  | CallJoin => Some (OpJoin, handleJoin env)
  | CallGuess => Some (OpGuess, handleGuess env s)
  | CallDecrypt cipher => Some (OpDecrypt, decryptCiphertext env s cipher)
  | CallManualDecrypt => Some (OpDecrypt, manualDecrypt env s)
  | ClickJoin =>
      Some (OpJoin, if joinDisabled env s then Ret tt else handleJoin env)
  | ClickGuess =>
      Some (OpGuess, if guessDisabled env s then Ret tt else handleGuess env s)
  | ClickDecrypt =>
      Some (OpDecrypt,
            if decryptDisabled env s then Ret tt else manualDecrypt env s)
  | TypeGuess v => Some (OpInput, setGuessValue v)
  | Settle _ => None
  end.

Fixpoint remove_nth {A} (i : nat) (l : list A) : list A :=
  match i, l with
  | O, _ :: l' => l'
  | S i', x :: l' => x :: remove_nth i' l'
  | _, [] => []
  end.

Definition resumed (op : Op) (t : option Paused) : list (Op * Paused) :=
  match t with
  | Some t => [(op, t)]
  | None => []
  end.

(** One step of the system. *)
Definition step (env : Env) (a : Action) (o : Oracle) (sys : System)
  : System :=
  match dispatch env a (live sys) with
  | Some (op, p) =>
      let '(s, ev, t) := advance o p (live sys) in
      {| live := s;
         pending := pending sys ++ resumed op t;
         trace := trace sys ++ ev |}
  | None =>
      match a with
      | Settle i =>
          match nth_error (pending sys) i with
          | Some (op, Paused_at c k) =>
              let '(s, ev, t) := advance o (k (o c)) (live sys) in
              {| live := s;
                 pending := remove_nth i (pending sys) ++ resumed op t;
                 trace := trace sys ++ ev |}
          | None => sys
          end
      | _ => sys
      end
  end.

Fixpoint exec (env : Env) (sched : list (Action * Oracle)) (sys : System)
  : System :=
  match sched with
  | [] => sys
  | (a, o) :: sched' => exec env sched' (step env a o sys)
  end.

(** The handlers of a kind that are in flight and the requests of a kind
    made so far. *)
Definition in_flight (op : Op) (sys : System) : nat :=
  List.length (filter (fun t => Op_eqb (fst t) op) (pending sys)).

Definition requests (p : Call -> bool) (sys : System) : nat :=
  List.length (filter (is_request p) (trace sys)).

(* ================================================================== *)
(** ** Busy flags *)

Section Flags.

(** A busy flag and the kind of operation it stands for. *)
Variable flag : State -> bool.
Variable mine : Op.

Definition frames (f : State -> State * list Event) : Prop :=
  forall s, flag (fst (f s)) = flag s.
Definition raises (f : State -> State * list Event) : Prop :=
  forall s, flag (fst (f s)) = true.
Definition lowers (f : State -> State * list Event) : Prop :=
  forall s, flag (fst (f s)) = false.

(** No setter of the handler touches the flag. *)
Fixpoint keeps {A} (p : Prog A) : Prop :=
  match p with
  | Ret _ | Throw _ => True
  | Act f k => frames f /\ keeps k
  | Ext c k => forall o, keeps (k o)
  end.

(** The handler neither touches the flag nor makes a call. *)
Fixpoint quiet {A} (p : Prog A) : Prop :=
  match p with
  | Ret _ | Throw _ => True
  | Act f k => frames f /\ quiet k
  | Ext _ _ => False
  end.

Definition ended {A} (p : Prog A) : Prop :=
  match p with
  | Ret _ | Throw _ => True
  | _ => False
  end.

(** The handler leaves the flag alone up to its last setter, which lowers
    it. *)
Fixpoint releases {A} (p : Prog A) : Prop :=
  match p with
  | Ret _ | Throw _ => False
  | Act f k => (frames f /\ releases k) \/ (lowers f /\ ended k)
  | Ext c k => forall o, releases (k o)
  end.

(** The handler raises the flag first and lowers it last. *)
Definition acquires {A} (p : Prog A) : Prop :=
  match p with
  | Act f k => raises f /\ releases k
  | _ => False
  end.

(** A [finally] block that is one setter lowering the flag. *)
Definition lowering (q : Prog unit) : Prop :=
  match q with
  | Act f (Ret _) => lowers f
  | _ => False
  end.

(** An action that respects the flag: a handler of the flag's own kind
    does nothing when the flag is up and can only acquire it when it is
    down; a handler of another kind leaves it alone. *)
Definition fair (env : Env) (a : Action) : Prop :=
  forall s,
    match dispatch env a s with
    | Some (op, p) =>
        if Op_eqb op mine
        then quiet p \/ (flag s = false /\ acquires p)
        else keeps p
    | None => True
    end.

Definition task_ok (t : Op * Paused) : Prop :=
  match t with
  | (op, Paused_at c k) =>
      if Op_eqb op mine then forall o, releases (k o)
      else forall o, keeps (k o)
  end.

(** The flag is up exactly while one handler of its kind is in flight,
    and there is never more than one. *)
Definition single_flight (sys : System) : Prop :=
  Forall task_ok (pending sys) /\
  in_flight mine sys = if flag (live sys) then 1%nat else 0%nat.

End Flags.

(** The actions by which the component receives a join or a guess.
    [handleJoin] and [handleGuess] are referenced only as the [onClick] of
    their buttons, so they are reached by [ClickJoin] and [ClickGuess] and
    by no direct call. *)
Definition through_buttons (a : Action) : bool :=
  match a with
  | CallJoin | CallGuess => false
  | _ => true
  end.

(* ================================================================== *)
(** ** The vocabulary of the statements *)

(** The three reads of a refresh for the account [acct]. *)
Definition refresh_reads (env : Env) (acct : string) : list Event :=
  [ERequest (ReadHasJoined (contractAddress env) acct);
   ERequest (ReadGetRound (contractAddress env) acct);
   ERequest (ReadGetLatestResult (contractAddress env) acct)].

(** All three reads have resolved. *)
Definition reads_resolved (env : Env) (acct : string) (o : Oracle)
    (j : bool) (r : Z) (l : option string) : Prop :=
  o (ReadHasJoined (contractAddress env) acct) = Resolved j /\
  o (ReadGetRound (contractAddress env) acct) = Resolved r /\
  o (ReadGetLatestResult (contractAddress env) acct) = Resolved l.

(** One of the three reads has failed. *)
Definition read_rejected (env : Env) (acct : string) (o : Oracle) : Prop :=
  (exists e, o (ReadHasJoined (contractAddress env) acct) = Rejected e) \/
  (exists e, o (ReadGetRound (contractAddress env) acct) = Rejected e) \/
  (exists e, o (ReadGetLatestResult (contractAddress env) acct) = Rejected e).

(** The answers a decryption of [cipher] gets up to the authority: a
    keypair, the time, the typed data, the signer (or none), a signature,
    and what the authority answers to the request made of them. *)
Definition decrypt_answers (env : Env) (acct : string) (o : Oracle)
    (cipher : string) (signer : bool)
    (answer : Outcome (option (list (string * jsstr)))) : Prop :=
  exists pk sk now eip sig,
    o GenerateKeypair = Resolved (pk, sk) /\
    o DateNow = Resolved now /\
    o (CreateEIP712 pk [contractAddress env] (now / 1000)%Z "10") = Resolved eip /\
    o ResolveSigner = Resolved signer /\
    o (SignTypedData eip) = Resolved sig /\
    o (UserDecrypt cipher (contractAddress env) sk pk (remove_first_0x sig)
         [contractAddress env] acct (now / 1000)%Z "10") = answer.

(** Neither the feedback code nor the cipher it came from has changed. *)
Definition feedback_kept (s s' : State) : Prop :=
  feedbackCode s' = feedbackCode s /\
  lastDecryptedCipher s' = lastDecryptedCipher s.

(** A decryption of [cipher] has taken the plaintext [v]: an integer is
    stored as the feedback code with [cipher] as the cipher it came from;
    anything else is refused and the feedback is as it was. *)
Definition decoded (cipher : string) (s : State) (v : jsstr)
    (out : Completion unit * State * list Event) : Prop :=
  if isInteger (Number v)
  then feedbackCode (final out) = Some (Number v) /\
       lastDecryptedCipher (final out) = Some cipher /\
       statusMessage (final out) = Some MSG_DECODED
  else feedback_kept s (final out) /\
       statusMessage (final out) = Some MSG_BAD_FORMAT.

(** A decryption has found no plaintext: the feedback is as it was. *)
Definition undecoded (s : State)
    (out : Completion unit * State * list Event) : Prop :=
  feedback_kept s (final out) /\
  statusMessage (final out) = Some MSG_NO_VALUE.

(** A run has shown the message [m] and ends with it on the banner. *)
Definition shows {A} (m : string) (out : Completion A * State * list Event)
  : Prop :=
  statusMessage (final out) = Some m /\ In (EStatus m) (events out).

(** A run that has changed nothing and done nothing. *)
Definition silent {A} (s : State) (out : Completion A * State * list Event)
  : Prop :=
  final out = s /\ events out = [].

(** The text of a guess converts to an integer from 1 to 10. *)
Definition valid_guess (v : jsstr) : Prop :=
  exists n : Z, to_int (Number (trim v)) = Some n /\ (1 <= n <= 10)%Z.

(** Any call that leaves the component. *)
Definition any_call (c : Call) : bool := true.

(** The handler has taken the guess: it shows that it is encrypting and
    goes on to the signer; with a signer it encrypts the number, and with
    the encrypted input it sends [submitGuess]. *)
Definition accepted (env : Env) (acct : string) (o : Oracle) (s : State)
  : Prop :=
  let out := run o (handleGuess env s) s in
  (exists rest, events out =
     EStatus MSG_GUESS_START :: ERequest ResolveSigner :: rest) /\
  (o ResolveSigner = Resolved true ->
   In (ERequest (EncryptInput (contractAddress env) acct (guessNumber s)))
      (events out) /\
   forall handles proof,
     o (EncryptInput (contractAddress env) acct (guessNumber s))
       = Resolved (handles, proof) ->
     In (ERequest (SendSubmitGuess (contractAddress env)
                     (hd_error handles) proof)) (events out)).

(* ================================================================== *)
(** ** Sample collaborators *)

(** Collaborators that answer every call: the three reads as given, a
    signer or none, the authority with the given record. *)
Definition answers (joined : bool) (activeRound : Z) (latest : option string)
    (signer : bool) (response : option (list (string * jsstr))) : Oracle :=
  fun c =>
    match c as c0 return Outcome (resp c0) with
    | ReadHasJoined _ _ => Resolved joined
    | ReadGetRound _ _ => Resolved activeRound
    | ReadGetLatestResult _ _ => Resolved latest
    | ResolveSigner => Resolved signer
    | GenerateKeypair => Resolved ("pub", "priv")
    | DateNow => Resolved 1700000000000%Z
    | CreateEIP712 _ _ _ _ =>
        Resolved {| domain := "domain";
                    types_UserDecryptRequestVerification := "types";
                    message := "message" |}
    | SignTypedData _ => Resolved "0x51"
    | UserDecrypt _ _ _ _ _ _ _ _ _ => Resolved response
    | EncryptInput _ _ _ => Resolved (["0xE1"], "0xF1")
    | SendJoinGame _ => Resolved "0x71"
    | SendSubmitGuess _ _ _ => Resolved "0x72"
    | WaitTx _ => Resolved tt
    end.

(** Collaborators whose every call fails. *)
Definition unreachable : Oracle :=
  fun c => Rejected (ErrorObj "network down").

Definition ACCOUNT0 : string := "0xA11CE".

Definition env0 : Env := {|
  address := Some ACCOUNT0;
  publicClient := true;
  instance := true;
  isZamaLoading := false;
  CONTRACT_ADDRESS := "0xC0DE"
|}.

Definition HANDLE1 : string :=
  "0xabcd000000000000000000000000000000000000000000000000000000000001".

Definition HANDLE2 : string :=
  "0xabcd000000000000000000000000000000000000000000000000000000000002".

(** Joined, a result on chain, not yet decrypted. *)
Definition pendingResult : State :=
  with_encryptedResult (Some HANDLE1) (with_hasJoined true initial).

(** The same with the feedback 2 decrypted from it. *)
Definition revealed : State :=
  with_lastDecryptedCipher (Some HANDLE1)
    (with_feedbackCode (Some (of_int 2)) pendingResult).

(** Joined, with the guess 5 typed in. *)
Definition readyToGuess : State :=
  with_guessValue (lit "5") (with_hasJoined true initial).

(* ================================================================== *)
(** ** Further vocabulary *)

(** Every path of the handler ends by returning. *)
Fixpoint never_throws {A} (p : Prog A) : Prop :=
  match p with
  | Ret _ => True
  | Throw _ => False
  | Act _ k => never_throws k
  | Ext c k => forall o, never_throws (k o)
  end.

(** What an event may be when only the calls in [P] are allowed. *)
Definition allowed (P : Call -> Prop) (ev : Event) : Prop :=
  match ev with
  | ERequest c => P c
  | _ => True
  end.

(** The handler makes no call outside [P]. *)
Fixpoint only_calls (P : Call -> Prop) {A} (p : Prog A) : Prop :=
  match p with
  | Ret _ | Throw _ => True
  | Act f k => (forall s, Forall (allowed P) (snd (f s))) /\ only_calls P k
  | Ext c k => P c /\ forall o, only_calls P (k o)
  end.

Definition is_read (c : Call) : bool :=
  match c with
  | ReadHasJoined _ _ | ReadGetRound _ _ | ReadGetLatestResult _ _ => true
  | _ => false
  end.

Definition is_transaction (c : Call) : bool :=
  match c with
  | SendJoinGame _ | SendSubmitGuess _ _ _ | WaitTx _ => true
  | _ => false
  end.

Definition is_encrypt (c : Call) : bool :=
  match c with EncryptInput _ _ _ => true | _ => false end.

Definition is_signTypedData (c : Call) : bool :=
  match c with SignTypedData _ => true | _ => false end.

(** The calls of a refresh: the three views of the configured contract,
    for the connected account. *)
Definition refresh_call (env : Env) (c : Call) : Prop :=
  is_read c = true /\
  match c with
  | ReadHasJoined ca a | ReadGetRound ca a | ReadGetLatestResult ca a =>
      ca = contractAddress env /\ account env = Some a
  | _ => True
  end.

(** The calls of a decryption of [cipher]: no contract read, no
    transaction, no encryption; the authority is asked for [cipher] only,
    for the configured contract and the connected account, for ten days. *)
Definition decrypt_call (env : Env) (cipher : string) (c : Call) : Prop :=
  is_read c = false /\ is_transaction c = false /\ is_encrypt c = false /\
  match c with
  | UserDecrypt h ca _ _ _ cs a _ d =>
      h = cipher /\ ca = contractAddress env /\ cs = [contractAddress env] /\
      account env = Some a /\ d = "10"
  | CreateEIP712 _ cs _ d => cs = [contractAddress env] /\ d = "10"
  | _ => True
  end.

(** The calls of a join. *)
Definition join_call (env : Env) (c : Call) : Prop :=
  is_submitGuess c = false /\ is_encrypt c = false /\
  is_userDecrypt c = false /\ is_signTypedData c = false /\
  match c with
  | SendJoinGame ca => ca = contractAddress env
  | ReadHasJoined _ _ | ReadGetRound _ _ | ReadGetLatestResult _ _ =>
      refresh_call env c
  | _ => True
  end.

(** The calls of a guess from the render of [s]. *)
Definition guess_call (env : Env) (s : State) (c : Call) : Prop :=
  is_joinGame c = false /\ is_userDecrypt c = false /\
  is_signTypedData c = false /\
  match c with
  | EncryptInput ca a v =>
      ca = contractAddress env /\ account env = Some a /\
      hasJoined s = true /\
      v = Number (trim (guessValue s)) /\
      exists n : Z, to_int v = Some n /\ (1 <= n <= 10)%Z
  | SendSubmitGuess ca _ _ => ca = contractAddress env
  | ReadHasJoined _ _ | ReadGetRound _ _ | ReadGetLatestResult _ _ =>
      refresh_call env c
  | _ => True
  end.

(** The state a refresh without its prerequisites leaves: the session
    cells at their initial values, the other cells as they were. *)
Definition cleared (s : State) : State :=
  {| hasJoined := false; round := of_int 0%Z; guessValue := guessValue s;
     encryptedResult := None; lastDecryptedCipher := None;
     feedbackCode := None; isJoining := isJoining s;
     isGuessing := isGuessing s; isDecrypting := isDecrypting s;
     statusMessage := statusMessage s |}.

(** The session and the text of the guess are as they were. *)
Definition session_kept (s s' : State) : Prop :=
  hasJoined s' = hasJoined s /\ round s' = round s /\
  encryptedResult s' = encryptedResult s /\
  feedbackCode s' = feedbackCode s /\
  lastDecryptedCipher s' = lastDecryptedCipher s /\
  guessValue s' = guessValue s.

(** A join fails with [e]: no signer, or the signer promise, the
    [joinGame] transaction or its confirmation rejected with [e]. *)
Definition join_fails (env : Env) (o : Oracle) (e : JSError) : Prop :=
  (o ResolveSigner = Resolved false /\ e = ErrorObj MSG_NO_SIGNER) \/
  o ResolveSigner = Rejected e \/
  (o ResolveSigner = Resolved true /\
   (o (SendJoinGame (contractAddress env)) = Rejected e \/
    exists tx, o (SendJoinGame (contractAddress env)) = Resolved tx /\
               o (WaitTx tx) = Rejected e)).


(** A guess of the number [v] fails with [e]: no signer, or the signer
    promise, the encryption, the [submitGuess] transaction or its
    confirmation rejected with [e]. *)
Definition guess_fails (env : Env) (acct : string) (v : number) (o : Oracle)
    (e : JSError) : Prop :=
  (o ResolveSigner = Resolved false /\ e = ErrorObj MSG_NO_SIGNER) \/
  o ResolveSigner = Rejected e \/
  (o ResolveSigner = Resolved true /\
   (o (EncryptInput (contractAddress env) acct v) = Rejected e \/
    exists handles proof,
      o (EncryptInput (contractAddress env) acct v) = Resolved (handles, proof) /\
      (o (SendSubmitGuess (contractAddress env) (hd_error handles) proof)
         = Rejected e \/
       exists tx,
         o (SendSubmitGuess (contractAddress env) (hd_error handles) proof)
           = Resolved tx /\
         o (WaitTx tx) = Rejected e))).

(** A guess of [v] goes through with the encrypted input
    [(handles, proof)]. *)
Definition guess_confirmed (env : Env) (acct : string) (v : number)
    (o : Oracle) (handles : list string) (proof : string) : Prop :=
  o ResolveSigner = Resolved true /\
  o (EncryptInput (contractAddress env) acct v) = Resolved (handles, proof) /\
  exists tx,
    o (SendSubmitGuess (contractAddress env) (hd_error handles) proof)
      = Resolved tx /\
    o (WaitTx tx) = Resolved tt.

(** A decryption is refused with [e] before the authority is asked: no
    signer, or the signer promise or the signature rejected with [e]. *)
Definition signature_refused (env : Env) (o : Oracle) (e : JSError) : Prop :=
  exists pk sk now eip,
    o GenerateKeypair = Resolved (pk, sk) /\
    o DateNow = Resolved now /\
    o (CreateEIP712 pk [contractAddress env] (now / 1000)%Z "10")
      = Resolved eip /\
    ((o ResolveSigner = Resolved false /\ e = ErrorObj MSG_NO_SIGNER) \/
     o ResolveSigner = Rejected e \/
     (o ResolveSigner = Resolved true /\ o (SignTypedData eip) = Rejected e)).

(** A string that does not begin with white space. *)
Definition starts_black (s : jsstr) : Prop :=
  match s with
  | c :: _ => is_white c = false
  | [] => True
  end.

(** The status effect depends on the account, the handle, the
    configuration and the last decrypted cipher: with the same account and
    configuration it runs after a render in which the handle or the last
    decrypted cipher differs from the render before. *)
Definition statusEffectDue (prev s : State) : bool :=
  differs (encryptedResult prev) (encryptedResult s)
  || differs (lastDecryptedCipher prev) (lastDecryptedCipher s).

(** What runs after the render of [s] that follows the render of [prev]. *)
Definition afterRender (env : Env) (prev s : State) : Prog unit :=
  if statusEffectDue prev s then statusEffect env s else Ret tt.

(** The feedback code and the cipher it came from are there or absent
    together, and a feedback code is an integer. *)
Definition feedback_paired (s : State) : Prop :=
  match feedbackCode s, lastDecryptedCipher s with
  | None, None => True
  | Some code, Some _ => isInteger code = true
  | _, _ => False
  end.

Section AtRest.

(** A property of the state that holds whenever no handler is running. *)
Variable I : State -> Prop.

(** Started in [s], the handler has [I] hold each time it comes to rest,
    at an [await] or at its end, provided [I] holds each time it is
    resumed. *)
Fixpoint rests (p : Prog unit) (s : State) : Prop :=
  match p with
  | Ret _ | Throw _ => I s
  | Act f k => rests k (fst (f s))
  | Ext c k =>
      if is_async c
      then I s /\ forall o s', I s' -> rests (k o) s'
      else forall o, rests (k o) s
  end.

Definition task_rests (t : Op * Paused) : Prop :=
  match t with
  | (_, Paused_at c k) => forall o s, I s -> rests (k o) s
  end.

(** [I] holds of the state and every pending handler will keep it. *)
Definition at_rest (sys : System) : Prop :=
  I (live sys) /\ Forall task_rests (pending sys).

End AtRest.

(** A decryption is started and gets as far as the authority; a guess is
    then made and confirmed, and its refresh reads a new handle; only then
    does the authority answer. *)
Definition guess_overtakes_decrypt (o : Oracle) : list (Action * Oracle) :=
  [(ClickDecrypt, o); (Settle 0, o); (Settle 0, o);
   (ClickGuess, o); (Settle 1, o); (Settle 1, o); (Settle 1, o);
   (Settle 1, o); (Settle 1, o); (Settle 1, o); (Settle 1, o);
   (Settle 0, o)].

(** The collaborators [o], except that the wallet refuses to sign typed
    data and the contract reverts both transactions. *)
Definition refusing (o : Oracle) : Oracle :=
  fun c =>
    match c as c0 return Outcome (resp c0) with
    | SignTypedData _ => Rejected (ErrorObj "User rejected the request.")
    | SendJoinGame _ => Rejected (ErrorObj "execution reverted")
    | SendSubmitGuess _ _ _ => Rejected (ErrorObj "execution reverted")
    | c0 => o c0
    end.

(** No wallet connected. *)
Definition disconnected : Env := {|
  address := None;
  publicClient := true;
  instance := true;
  isZamaLoading := false;
  CONTRACT_ADDRESS := "0xC0DE"
|}.

(** Joined, a result on chain, and the guess 5 typed in. *)
Definition nextGuess : State := with_guessValue (lit "5") pendingResult.

(* ================================================================== *)
(** ** [Number] at work *)

Example Number_7 : Number (lit "7") = of_int 7.
Proof. reflexivity. Qed.

Example Number_7_0 : Number (lit "7.0") = of_int 7.
Proof. reflexivity. Qed.

Example Number_0x7 : Number (lit "0x7") = of_int 7.
Proof. reflexivity. Qed.

Example Number_7_spaces : Number (lit " 7 ") = of_int 7.
Proof. reflexivity. Qed.

Example Number_1e1 : Number (lit "1e1") = of_int 10.
Proof. reflexivity. Qed.

Example Number_3_5 : Number (lit "3.5") = Finite false 7 (-1).
Proof. reflexivity. Qed.

Example Number_abc : Number (lit "abc") = NaN.
Proof. reflexivity. Qed.

Example Number_plus_hex : Number (lit "+0x7") = NaN.
Proof. reflexivity. Qed.

Example Number_tenth :
  Number (lit "0.1") = Finite false 3602879701896397 (-55).
Proof. vm_compute. reflexivity. Qed.

Example Number_rounds_to_one :
  Number (lit "1.00000000000000000001") = of_int 1.
Proof. vm_compute. reflexivity. Qed.

Example Number_overflows : Number (lit "1e309") = Infinity false.
Proof. vm_compute. reflexivity. Qed.

Example interpretResult_2 :
  interpretResult (of_int 2) = Some "🔥 So close! Off by a single digit.".
Proof. reflexivity. Qed.

(* ================================================================== *)
(** ** Basic facts *)

Lemma differs_spec (a b : option string) : differs a b = true <-> a <> b.
Proof.
  destruct a as [x|], b as [y|]; cbn; split; try congruence; try discriminate.
  - intros H E. injection E as ->. rewrite String.eqb_refl in H. discriminate.
  - intros H. destruct (String.eqb_spec x y); [congruence | reflexivity].
Qed.

Lemma differs_false (a b : option string) : differs a b = false <-> a = b.
Proof.
  split.
  - intros H. destruct a as [x|], b as [y|]; cbn in H; try discriminate; trivial.
    destruct (String.eqb_spec x y); [congruence | discriminate].
  - intros ->. destruct b; cbn; [rewrite String.eqb_refl|]; reflexivity.
Qed.

Lemma truthy_opt_spec (l : option string) :
  truthy_opt l = true <-> l <> None /\ l <> Some EmptyString.
Proof.
  destruct l as [[|c t]|]; cbn; split; intros H;
    try discriminate; try (split; congruence); try reflexivity;
    destruct H; congruence.
Qed.

(* ================================================================== *)
(** ** Refresh *)

Section Refresh.

Variable env : Env.
Variable acct : string.
Hypothesis connected : account env = Some acct.
Hypothesis client : publicClient env = true.
Hypothesis configured : isContractConfigured env = true.

Lemma run_refresh_resolved (o : Oracle) s j r l :
  reads_resolved env acct o j r l ->
  let u := updateEncryptedResult l
             (with_round (Number_of_bigint r) (with_hasJoined j s)) in
  run o (refreshPlayerData env) s =
    (Returned tt,
     (if j then fst u
      else with_lastDecryptedCipher None (with_feedbackCode None (fst u))),
     refresh_reads env acct ++ snd u).
Proof.
  intros (Hj & Hr & Hl) u. unfold refreshPlayerData.
  rewrite connected, client, configured. cbn.
  rewrite Hj, Hr, Hl. cbn. fold u. destruct u as [s1 ev].
  destruct j; cbn; rewrite ?app_nil_r; reflexivity.
Qed.

Lemma run_refresh_rejected (o : Oracle) s :
  read_rejected env acct o ->
  exists e,
    run o (refreshPlayerData env) s =
      (Returned tt, s,
       refresh_reads env acct ++ [EConsoleError "Failed to refresh player data" e]).
Proof.
  intros Hrej. unfold read_rejected in Hrej. unfold refreshPlayerData.
  rewrite connected, client, configured. cbn.
  destruct (o (ReadHasJoined (contractAddress env) acct)) as [j|e1] eqn:E1;
  destruct (o (ReadGetRound (contractAddress env) acct)) as [r|e2] eqn:E2;
  destruct (o (ReadGetLatestResult (contractAddress env) acct)) as [l|e3] eqn:E3;
  cbn; try (eexists; reflexivity).
  destruct Hrej as [[e H]|[[e H]|[e H]]]; discriminate.
Qed.

Lemma reads_total (o : Oracle) :
  (exists j r l, reads_resolved env acct o j r l) \/ read_rejected env acct o.
Proof.
  unfold reads_resolved, read_rejected.
  destruct (o (ReadHasJoined (contractAddress env) acct)) as [j|e1];
  destruct (o (ReadGetRound (contractAddress env) acct)) as [r|e2];
  destruct (o (ReadGetLatestResult (contractAddress env) acct)) as [l|e3];
  eauto 8.
Qed.

(** The fields an update of the handle leaves alone. *)
Lemma update_frame l s :
  let u := fst (updateEncryptedResult l s) in
  hasJoined u = hasJoined s /\ round u = round s /\ encryptedResult u = l.
Proof.
  unfold updateEncryptedResult.
  destruct (differs (encryptedResult s) l);
    [destruct (truthy_opt l && differs l (Some ZERO_CIPHERTEXT))|];
    cbn; auto.
Qed.

Lemma update_same l s :
  encryptedResult s = l -> updateEncryptedResult l s = (s, []).
Proof.
  intros E. unfold updateEncryptedResult.
  replace (differs (encryptedResult s) l) with false
    by (symmetry; apply differs_false; exact E).
  subst l. destruct s; reflexivity.
Qed.

Lemma update_changed l s :
  encryptedResult s <> l ->
  let u := fst (updateEncryptedResult l s) in
  feedbackCode u = None /\ lastDecryptedCipher u = None.
Proof.
  intros NE. unfold updateEncryptedResult.
  replace (differs (encryptedResult s) l) with true
    by (symmetry; apply differs_spec; exact NE).
  destruct (truthy_opt l && differs l (Some ZERO_CIPHERTEXT)); cbn; auto.
Qed.

Lemma update_events l s :
  snd (updateEncryptedResult l s) =
    if differs (encryptedResult s) l && truthy_opt l
       && differs l (Some ZERO_CIPHERTEXT)
    then [EStatus MSG_RESULT_READY] else [].
Proof.
  unfold updateEncryptedResult.
  destruct (differs (encryptedResult s) l); cbn; [|reflexivity].
  destruct (truthy_opt l && differs l (Some ZERO_CIPHERTEXT)); reflexivity.
Qed.

Lemma update_feedback l s :
  let u := fst (updateEncryptedResult l s) in
  (feedbackCode u = None \/ feedbackCode u = feedbackCode s) /\
  (lastDecryptedCipher u = None \/ lastDecryptedCipher u = lastDecryptedCipher s).
Proof.
  unfold updateEncryptedResult.
  destruct (differs (encryptedResult s) l);
    [destruct (truthy_opt l && differs l (Some ZERO_CIPHERTEXT))|];
    cbn; auto.
Qed.

(** C3. A refresh is all or nothing.  When the three reads [hasJoined],
    [getRound] and [getLatestResult] all resolve, the joined flag, the round
    and the ciphertext handle are set together from what they returned; when
    any of them is rejected, the failure goes to the console only (no status
    message) and the state stays exactly as it was.  One of the two is
    always the case. *)
Theorem refresh_is_atomic (o : Oracle) (s : State) :
  let out := run o (refreshPlayerData env) s in
  ((exists j r l, reads_resolved env acct o j r l) \/ read_rejected env acct o) /\
  (forall j r l, reads_resolved env acct o j r l ->
     hasJoined (final out) = j /\
     round (final out) = Number_of_bigint r /\
     encryptedResult (final out) = l) /\
  (read_rejected env acct o ->
     final out = s /\
     exists e, events out =
       refresh_reads env acct ++ [EConsoleError "Failed to refresh player data" e]).
Proof.
  intros out. split; [apply reads_total|]. split.
  - intros j r l R. subst out. rewrite (run_refresh_resolved o s j r l R).
    unfold final. cbn [fst snd].
    pose proof (update_frame l (with_round (Number_of_bigint r)
                                  (with_hasJoined j s))) as (F1 & F2 & F3).
    destruct j; cbn; cbn in F1, F2, F3; auto.
  - intros R. subst out. destruct (run_refresh_rejected o s R) as [e ->].
    split; [reflexivity | exists e; reflexivity].
Qed.

(** C4. A refresh compares the handle it has read with the stored one,
    as nullable strings.  When they differ, the feedback code and the
    cipher it came from are cleared; the "result ready" message is shown
    exactly when they differ and the new handle is not null and not the
    all-zero sentinel.  No refresh sets a feedback code, and a refresh that
    reads the sentinel shows no status message at all.  (A handle is a
    bytes32 hex string, so never the empty string.) *)
Theorem refresh_detects_change (o : Oracle) (s : State) j r l :
  reads_resolved env acct o j r l ->
  l <> Some EmptyString ->
  let out := run o (refreshPlayerData env) s in
  (encryptedResult s <> l ->
     feedbackCode (final out) = None /\ lastDecryptedCipher (final out) = None) /\
  (existsb (is_status_of MSG_RESULT_READY) (events out) = true <->
     encryptedResult s <> l /\ l <> None /\ l <> Some ZERO_CIPHERTEXT) /\
  (feedbackCode (final out) = None \/ feedbackCode (final out) = feedbackCode s) /\
  (l = Some ZERO_CIPHERTEXT -> existsb is_status (events out) = false).
Proof.
  intros R NE out. subst out. rewrite (run_refresh_resolved o s j r l R).
  unfold final, events. cbn [fst snd].
  set (s0 := with_round (Number_of_bigint r) (with_hasJoined j s)).
  pose proof (differs_spec (encryptedResult s) l) as D.
  pose proof (truthy_opt_spec l) as T.
  pose proof (differs_spec l (Some ZERO_CIPHERTEXT)) as Z.
  split; [|split; [|split]].
  - intros NEq. destruct (update_changed l s0) as [A B]; [exact NEq|].
    destruct j; cbn; auto.
  - rewrite existsb_app, update_events.
    change (encryptedResult s0) with (encryptedResult s). cbn [refresh_reads].
    destruct (differs (encryptedResult s) l), (truthy_opt l),
      (differs l (Some ZERO_CIPHERTEXT)); cbn; intuition congruence.
  - destruct (update_feedback l s0) as [[A|A] _]; destruct j; cbn; auto.
  - intros ->. rewrite existsb_app, update_events. cbn.
    rewrite andb_false_r. reflexivity.
Qed.

(** C7. A refresh that reads the stored handle again, the account still
    joined, changes neither the feedback code nor the cipher it came from;
    so the feedback for a handle survives any number of refreshes that read
    that handle (refreshes that fail included). *)
Theorem refresh_same_handle_keeps_feedback :
  (forall (o : Oracle) s r,
     reads_resolved env acct o true r (encryptedResult s) ->
     let out := run o (refreshPlayerData env) s in
     feedbackCode (final out) = feedbackCode s /\
     lastDecryptedCipher (final out) = lastDecryptedCipher s /\
     encryptedResult (final out) = encryptedResult s) /\
  (forall (os : list Oracle) s,
     Forall (fun o : Oracle =>
               read_rejected env acct o \/
               exists r, reads_resolved env acct o true r (encryptedResult s)) os ->
     let s' := refreshes env os s in
     feedbackCode s' = feedbackCode s /\
     lastDecryptedCipher s' = lastDecryptedCipher s /\
     encryptedResult s' = encryptedResult s).
Proof.
  assert (One : forall (o : Oracle) s r,
     reads_resolved env acct o true r (encryptedResult s) ->
     let out := run o (refreshPlayerData env) s in
     feedbackCode (final out) = feedbackCode s /\
     lastDecryptedCipher (final out) = lastDecryptedCipher s /\
     encryptedResult (final out) = encryptedResult s).
  { intros o s r R out. subst out.
    rewrite (run_refresh_resolved o s true r (encryptedResult s) R).
    rewrite update_same by reflexivity. unfold final. cbn. auto. }
  split; [exact One|].
  induction os as [|o os IH]; intros s F s'; subst s'; cbn [refreshes].
  - auto.
  - inversion F as [|? ? Ho Hos]; subst.
    assert (Step : let t := final (run o (refreshPlayerData env) s) in
                   feedbackCode t = feedbackCode s /\
                   lastDecryptedCipher t = lastDecryptedCipher s /\
                   encryptedResult t = encryptedResult s).
    { destruct Ho as [Rej | [r R]].
      - destruct (run_refresh_rejected o s Rej) as [e ->]. cbn. auto.
      - apply (One o s r R). }
    cbn in Step. destruct Step as (A & B & C).
    rewrite <- A, <- B, <- C. apply IH. rewrite C. exact Hos.
Qed.

(** C8. After a refresh whose three reads resolve and whose [hasJoined]
    read is false, the feedback code and the last decrypted cipher are
    null, whatever the handle is. *)
Theorem refresh_not_joined_clears_feedback (o : Oracle) (s : State) r l :
  reads_resolved env acct o false r l ->
  let out := run o (refreshPlayerData env) s in
  feedbackCode (final out) = None /\ lastDecryptedCipher (final out) = None.
Proof.
  intros R out. subst out. rewrite (run_refresh_resolved o s false r l R).
  unfold final. cbn. auto.
Qed.

End Refresh.

(* ================================================================== *)
(** ** Decrypt *)

Section Decrypt.

Variable env : Env.
Variable acct : string.
Hypothesis connected : account env = Some acct.
Hypothesis engine : instance env = true.
Hypothesis configured : isContractConfigured env = true.

Ltac answer B H :=
  let pk := fresh "pk" in let sk := fresh "sk" in let now := fresh "now" in
  let eip := fresh "eip" in let sig := fresh "sig" in
  destruct H as (pk & sk & now & eip & sig & ?A1 & ?A2 & ?A3 & ?A4 & ?A5 & ?A6);
  unfold decryptCiphertext; rewrite connected, engine, configured, B; cbn;
  rewrite A1; cbn; rewrite A2; cbn; rewrite A3; cbn; rewrite A4; cbn.

Lemma run_decrypt_answered (o : Oracle) s cipher response :
  isDecrypting s = false ->
  decrypt_answers env acct o cipher true (Resolved response) ->
  let out := run o (decryptCiphertext env s cipher) s in
  completion out = Returned tt /\
  isDecrypting (final out) = false /\
  existsb (is_request is_userDecrypt) (events out) = true /\
  match rawValue response cipher with
  | None =>
      feedback_kept s (final out) /\
      statusMessage (final out) = Some MSG_NO_VALUE
  | Some raw =>
      if isInteger (Number raw)
      then feedbackCode (final out) = Some (Number raw) /\
           lastDecryptedCipher (final out) = Some cipher /\
           statusMessage (final out) = Some MSG_DECODED
      else feedback_kept s (final out) /\
           statusMessage (final out) = Some MSG_BAD_FORMAT
  end.
Proof.
  intros B H. answer B H. rewrite A5. cbn. rewrite A6. cbn.
  unfold feedback_kept.
  destruct (rawValue response cipher) as [raw|]; cbn;
    [destruct (isInteger (Number raw)); cbn|]; auto 10.
Qed.

Lemma run_decrypt_no_signer (o : Oracle) s cipher answer :
  isDecrypting s = false ->
  decrypt_answers env acct o cipher false answer ->
  let out := run o (decryptCiphertext env s cipher) s in
  shows MSG_NO_SIGNER out /\
  existsb (is_request is_userDecrypt) (events out) = false.
Proof.
  intros B H. answer B H. unfold shows. cbn. auto 12.
Qed.

(** The entry of a record with distinct keys is what the keyed lookup
    finds, wherever the entry stands. *)
Lemma lookup_In key v (r : list (string * jsstr)) :
  NoDup (map fst r) -> In (key, v) r -> lookup key r = Some v.
Proof.
  induction r as [|[k w] r IH]; cbn; intros D H; [contradiction|].
  inversion D as [|? ? NI D']; subst.
  destruct (String.eqb_spec k key) as [->|NE].
  - destruct H as [H|H]; [congruence|].
    exfalso. apply NI. apply (in_map fst) in H. exact H.
  - destruct H as [H|H]; [congruence | auto].
Qed.

Lemma lookup_Some key v (r : list (string * jsstr)) :
  lookup key r = Some v -> In (key, v) r.
Proof.
  induction r as [|[k w] r IH]; cbn; [discriminate|].
  destruct (String.eqb_spec k key) as [->|NE].
  - intros [= ->]. auto.
  - auto.
Qed.

Lemma lookup_only_empty key (r : list (string * jsstr)) :
  (forall w, In (key, w) r -> w = []) -> nonempty (lookup key r) = None.
Proof.
  intros H. destruct (lookup key r) as [w|] eqn:L; [|reflexivity].
  apply lookup_Some in L. rewrite (H w L). reflexivity.
Qed.

(** C6. What a decryption does with the answer of the authority.  The
    plaintext is the value the record holds under the requested handle,
    whichever other entries the record has and wherever that entry stands;
    when the record has nothing (or only the empty text) under the handle,
    it is the first value of the record.  With no value at all (no record,
    an empty one, a first value that is empty) the handler catches the
    failure, shows its message and leaves the feedback as it was, and so it
    does with a value that is no integer; otherwise it stores the number as
    the feedback code and the handle as the cipher it came from. *)
Theorem decrypt_extracts_value (o : Oracle) s cipher response :
  isDecrypting s = false ->
  decrypt_answers env acct o cipher true (Resolved response) ->
  let out := run o (decryptCiphertext env s cipher) s in
  completion out = Returned tt /\
  (forall r v,
     response = Some r -> NoDup (map fst r) ->
     In (cipher, v) r -> v <> [] ->
     decoded cipher s v out) /\
  (forall k v rest,
     response = Some ((k, v) :: rest) ->
     (forall w, In (cipher, w) ((k, v) :: rest) -> w = []) ->
     v <> [] ->
     decoded cipher s v out) /\
  (forall r,
     response = Some r ->
     (forall w, In (cipher, w) r -> w = []) ->
     hd_error (map snd r) = None \/ hd_error (map snd r) = Some [] ->
     undecoded s out) /\
  (response = None -> undecoded s out).
Proof.
  intros B H out.
  pose proof (run_decrypt_answered o s cipher response B H)
    as (C & _ & _ & R).
  fold out in C, R. unfold decoded, undecoded.
  split; [exact C|]. split; [|split; [|split]].
  - intros r v -> D I NE.
    assert (E : rawValue (Some r) cipher = Some v).
    { cbn. rewrite (lookup_In cipher v r D I).
      destruct v; [congruence | reflexivity]. }
    rewrite E in R. exact R.
  - intros k v rest -> Only NE.
    assert (E : rawValue (Some ((k, v) :: rest)) cipher = Some v).
    { unfold rawValue. rewrite (lookup_only_empty cipher _ Only).
      cbn. destruct v; [congruence | reflexivity]. }
    rewrite E in R. exact R.
  - intros r -> Only Hd.
    assert (E : rawValue (Some r) cipher = None).
    { unfold rawValue. rewrite (lookup_only_empty cipher _ Only).
      destruct Hd as [-> | ->]; reflexivity. }
    rewrite E in R. exact R.
  - intros ->. exact R.
Qed.

End Decrypt.

(* ================================================================== *)
(** ** Guess *)

Lemma invalidGuess_spec (x : number) :
  invalidGuess x = false <->
  exists n : Z, to_int x = Some n /\ (1 <= n <= 10)%Z.
Proof.
  unfold invalidGuess. destruct x as [|neg|neg m e]; cbn.
  - split; [discriminate | intros (n & H & _); discriminate].
  - split; [discriminate | intros (n & H & _); discriminate].
  - destruct (0 <=? e)%Z; cbn.
    + rewrite orb_false_iff, Z.ltb_ge, Z.ltb_ge. split.
      * intros [A B]. eexists. split; [reflexivity | lia].
      * intros (n & H & B). injection H as <-. lia.
    + split; [discriminate | intros (n & H & _); discriminate].
Qed.

Lemma of_int_in_range (n : Z) :
  (1 <= n <= 10)%Z -> to_int (of_int n) = Some n.
Proof.
  intros H.
  assert (C : (n = 1 \/ n = 2 \/ n = 3 \/ n = 4 \/ n = 5 \/ n = 6 \/ n = 7
               \/ n = 8 \/ n = 9 \/ n = 10)%Z) by lia.
  repeat (destruct C as [-> | C]; [reflexivity|]). subst n. reflexivity.
Qed.

Lemma run_guess_invalid env acct (o : Oracle) s :
  account env = Some acct ->
  isContractConfigured env = true ->
  hasJoined s = true ->
  invalidGuess (guessNumber s) = true ->
  run o (handleGuess env s) s =
    (Returned tt, with_statusMessage (Some MSG_INVALID_GUESS) s,
     [EStatus MSG_INVALID_GUESS]).
Proof.
  intros A C J I. unfold handleGuess. rewrite A, C, J, I. reflexivity.
Qed.

(** Before it has checked the text of the guess, the handler makes no call. *)
Lemma guess_calls_need_valid env (o : Oracle) s :
  existsb (is_request any_call) (events (run o (handleGuess env s) s)) = true ->
  hasJoined s = true /\ invalidGuess (guessNumber s) = false.
Proof.
  unfold handleGuess.
  destruct (account env) as [acct|]; [|cbn; discriminate].
  destruct (isContractConfigured env); [|cbn; discriminate].
  destruct (hasJoined s); [|cbn; discriminate].
  destruct (invalidGuess (guessNumber s)); [cbn; discriminate|].
  auto.
Qed.

(** C1. A guess makes a call outside the component (a transaction, a
    network request, or any other) only when the session shows joined and
    the text of the guess converts to an integer from 1 to 10.  For any
    other text there is no call at all, and, the wallet connected, the
    contract configured and the session joined, the handler only shows the
    invalid-range message.  The texts 0, 11, 3.5 and abc are such. *)
Theorem guess_requires_join_and_range env (o : Oracle) s :
  let out := run o (handleGuess env s) s in
  (existsb (is_request any_call) (events out) = true ->
     hasJoined s = true /\ valid_guess (guessValue s)) /\
  (~ valid_guess (guessValue s) ->
     existsb (is_request any_call) (events out) = false /\
     (account env <> None -> isContractConfigured env = true ->
      hasJoined s = true ->
      out = (Returned tt, with_statusMessage (Some MSG_INVALID_GUESS) s,
             [EStatus MSG_INVALID_GUESS]))) /\
  Forall (fun v => ~ valid_guess (lit v)) ["0"; "11"; "3.5"; "abc"].
Proof.
  intros out. split; [|split].
  - intros H. apply guess_calls_need_valid in H. destruct H as [J V].
    split; [exact J|]. apply invalidGuess_spec. exact V.
  - intros NV.
    assert (I : invalidGuess (guessNumber s) = true).
    { destruct (invalidGuess (guessNumber s)) eqn:E; [reflexivity|].
      exfalso. apply NV. apply invalidGuess_spec. exact E. }
    split.
    + destruct (existsb (is_request any_call) (events out)) eqn:E;
        [|reflexivity].
      apply guess_calls_need_valid in E. destruct E as [_ E]. congruence.
    + intros A C J. destruct (account env) as [acct|] eqn:EA; [|congruence].
      apply (run_guess_invalid env acct o s EA C J I).
  - repeat constructor; intros V; apply invalidGuess_spec in V;
      vm_compute in V; discriminate.
Qed.

Section Guess.

Variable env : Env.
Variable acct : string.
Hypothesis connected : account env = Some acct.
Hypothesis engine : instance env = true.
Hypothesis configured : isContractConfigured env = true.

Lemma run_guess_accepted (o : Oracle) s :
  hasJoined s = true ->
  invalidGuess (guessNumber s) = false ->
  accepted env acct o s.
Proof.
  intros J V. unfold accepted, handleGuess.
  rewrite connected, configured, J, V, engine. cbn -[refreshPlayerData].
  destruct (o ResolveSigner) as [[|]|e] eqn:S; cbn -[refreshPlayerData].
  2,3: (split; [eexists; reflexivity|]; intros; discriminate).
  destruct (o (EncryptInput (contractAddress env) acct (guessNumber s)))
    as [[hs pf]|e] eqn:E; cbn -[refreshPlayerData].
  2: { split; [eexists; reflexivity|].
       intros _. split; [auto|]. intros; discriminate. }
  destruct (o (SendSubmitGuess (contractAddress env) (hd_error hs) pf))
    as [tx|e] eqn:T; cbn -[refreshPlayerData].
  2: { split; [eexists; reflexivity|].
       intros _. split; [auto|]. intros ? ? [= <- <-]. auto. }
  destruct (o (WaitTx tx)) as [[]|e] eqn:W; cbn -[refreshPlayerData].
  2: { split; [eexists; reflexivity|].
       intros _. split; [auto|]. intros ? ? [= <- <-]. auto. }
  destruct (run o _ _) as [[r1 s1] ev1]. cbn.
  split; [eexists; reflexivity|].
  intros _. split; [auto|]. intros ? ? [= <- <-]. auto 6.
Qed.

(** C10. The text of a guess is trimmed and converted as [Number] does;
    whatever converts to an integer from 1 to 10 is taken, whichever way it
    is written: 7.0, 7 between spaces and 0x7 all convert to 7 and are
    taken, and the empty text converts to 0 and is refused as out of
    range. *)
Theorem guess_uses_number_conversion (o : Oracle) s :
  hasJoined s = true ->
  (valid_guess (guessValue s) -> accepted env acct o s) /\
  (forall n : Z, (1 <= n <= 10)%Z ->
     Number (trim (guessValue s)) = of_int n -> accepted env acct o s) /\
  Forall (fun v => Number (trim (lit v)) = of_int 7) ["7.0"; " 7 "; "0x7"] /\
  Number (trim (lit EmptyString)) = of_int 0 /\
  (guessValue s = lit EmptyString ->
     run o (handleGuess env s) s =
       (Returned tt, with_statusMessage (Some MSG_INVALID_GUESS) s,
        [EStatus MSG_INVALID_GUESS])).
Proof.
  intros J.
  assert (A : valid_guess (guessValue s) -> accepted env acct o s).
  { intros V. apply run_guess_accepted; [exact J|].
    apply invalidGuess_spec. exact V. }
  split; [exact A|]. split; [|split; [|split]].
  - intros n R E. apply A. exists n. rewrite E.
    split; [apply of_int_in_range; exact R | exact R].
  - repeat constructor.
  - reflexivity.
  - intros E. apply (run_guess_invalid env acct o s connected configured J).
    unfold guessNumber. rewrite E. reflexivity.
Qed.

End Guess.

(* ================================================================== *)
(** ** Failed preconditions *)

Lemma run_join_no_signer env (o : Oracle) s :
  account env <> None ->
  isContractConfigured env = true ->
  o ResolveSigner = Resolved false ->
  shows MSG_NO_SIGNER (run o (handleJoin env) s).
Proof.
  intros A C S. unfold handleJoin.
  destruct (account env) as [acct|]; [|congruence].
  rewrite C. cbn. rewrite S. unfold shows. cbn. auto 8.
Qed.

Lemma run_guess_no_signer env (o : Oracle) s :
  account env <> None ->
  isContractConfigured env = true ->
  hasJoined s = true ->
  invalidGuess (guessNumber s) = false ->
  instance env = true ->
  o ResolveSigner = Resolved false ->
  shows MSG_NO_SIGNER (run o (handleGuess env s) s).
Proof.
  intros A C J V I S. unfold handleGuess.
  destruct (account env) as [acct|]; [|congruence].
  rewrite C, J, V, I. cbn. rewrite S. unfold shows. cbn. auto 8.
Qed.

(** C9. Without a cipher engine instance, an account or a configured
    contract address, [decryptCiphertext] returns at once: the state is as
    it was and nothing has happened, no status message, no console output,
    no call to the signer or the authority.  The other failed preconditions
    of join, guess and decrypt put their message on the banner: no wallet,
    no contract address, no signer for a join; the same and a session not
    joined, a guess out of range and an engine that is offline for a guess;
    no encrypted data and no contract address for the decrypt button, no
    signer for a decryption. *)
Theorem decrypt_is_silent_without_prerequisites env (o : Oracle) s cipher :
  (instance env = false \/ account env = None \/
   isContractConfigured env = false ->
     silent s (run o (decryptCiphertext env s cipher) s)) /\
  (* join *)
  (account env = None ->
     shows MSG_JOIN_NO_WALLET (run o (handleJoin env) s)) /\
  (account env <> None -> isContractConfigured env = false ->
     shows MSG_NOT_CONFIGURED (run o (handleJoin env) s)) /\
  (account env <> None -> isContractConfigured env = true ->
   o ResolveSigner = Resolved false ->
     shows MSG_NO_SIGNER (run o (handleJoin env) s)) /\
  (* guess *)
  (account env = None ->
     shows MSG_GUESS_NO_WALLET (run o (handleGuess env s) s)) /\
  (account env <> None -> isContractConfigured env = false ->
     shows MSG_NOT_CONFIGURED (run o (handleGuess env s) s)) /\
  (account env <> None -> isContractConfigured env = true ->
   hasJoined s = false ->
     shows MSG_NOT_JOINED (run o (handleGuess env s) s)) /\
  (account env <> None -> isContractConfigured env = true ->
   hasJoined s = true -> invalidGuess (guessNumber s) = true ->
     shows MSG_INVALID_GUESS (run o (handleGuess env s) s)) /\
  (account env <> None -> isContractConfigured env = true ->
   hasJoined s = true -> invalidGuess (guessNumber s) = false ->
   instance env = false ->
     shows MSG_ENGINE_OFFLINE (run o (handleGuess env s) s)) /\
  (account env <> None -> isContractConfigured env = true ->
   hasJoined s = true -> invalidGuess (guessNumber s) = false ->
   instance env = true -> o ResolveSigner = Resolved false ->
     shows MSG_NO_SIGNER (run o (handleGuess env s) s)) /\
  (* decrypt *)
  (truthy_opt (encryptedResult s) = false \/
   encryptedResult s = Some ZERO_CIPHERTEXT ->
     shows MSG_NO_DATA (run o (manualDecrypt env s) s)) /\
  (truthy_opt (encryptedResult s) = true ->
   encryptedResult s <> Some ZERO_CIPHERTEXT ->
   isContractConfigured env = false ->
     shows MSG_NOT_CONFIGURED (run o (manualDecrypt env s) s)) /\
  (forall acct answer,
   account env = Some acct -> instance env = true ->
   isContractConfigured env = true -> isDecrypting s = false ->
   decrypt_answers env acct o cipher false answer ->
     shows MSG_NO_SIGNER (run o (decryptCiphertext env s cipher) s)).
Proof.
  unfold shows, silent.
  repeat match goal with |- _ /\ _ => split end.
  - unfold decryptCiphertext. intros [H | [H | H]].
    + destruct (account env); [rewrite H|]; cbn; auto.
    + rewrite H. cbn. auto.
    + destruct (account env); [rewrite H, orb_true_r|]; cbn; auto.
  - intros H. unfold handleJoin. rewrite H. cbn. auto.
  - intros A H. unfold handleJoin.
    destruct (account env); [|congruence]. rewrite H. cbn. auto.
  - apply run_join_no_signer.
  - intros H. unfold handleGuess. rewrite H. cbn. auto.
  - intros A H. unfold handleGuess.
    destruct (account env); [|congruence]. rewrite H. cbn. auto.
  - intros A C J. unfold handleGuess.
    destruct (account env); [|congruence]. rewrite C, J. cbn. auto.
  - intros A C J V. unfold handleGuess.
    destruct (account env); [|congruence]. rewrite C, J, V. cbn. auto.
  - intros A C J V I. unfold handleGuess.
    destruct (account env); [|congruence]. rewrite C, J, V, I. cbn. auto.
  - apply run_guess_no_signer.
  - unfold manualDecrypt. intros [H | H].
    + destruct (encryptedResult s) as [[|c t]|]; cbn in H; try discriminate;
        cbn; auto.
    + rewrite H. cbn. auto.
  - intros T NZ C. unfold manualDecrypt.
    destruct (encryptedResult s) as [h|]; [|discriminate].
    cbn in T. rewrite T. cbn [negb orb].
    destruct (String.eqb_spec h ZERO_CIPHERTEXT); [congruence|].
    rewrite C. cbn. auto.
  - intros acct answer A I C B H.
    apply (run_decrypt_no_signer env acct A I C o s cipher answer B H).
Qed.

(* ================================================================== *)
(** ** Busy flags: one handler of a kind at a time *)

Section SingleFlight.

(** A busy flag and the kind of operation it stands for. *)
Variable flag : State -> bool.
Variable mine : Op.

Local Abbreviation frames := (frames flag).
Local Abbreviation lowers := (lowers flag).
Local Abbreviation keeps := (keeps flag).
Local Abbreviation quiet := (quiet flag).
Local Abbreviation releases := (releases flag).
Local Abbreviation acquires := (acquires flag).
Local Abbreviation lowering := (lowering flag).
Local Abbreviation fair := (fair flag mine).
Local Abbreviation task_ok := (task_ok flag mine).
Local Abbreviation single_flight := (single_flight flag mine).

Lemma quiet_keeps {A} (p : Prog A) : quiet p -> keeps p.
Proof. induction p; cbn; intuition. Qed.

Lemma keeps_bind {A B} (p : Prog A) (q : A -> Prog B) :
  keeps p -> (forall a, keeps (q a)) -> keeps (bind p q).
Proof. induction p; cbn; intuition. Qed.

Lemma keeps_try_catch {A} (p : Prog A) h :
  keeps p -> (forall e, keeps (h e)) -> keeps (try_catch p h).
Proof. induction p; cbn; intuition. Qed.

Lemma keeps_finally {A} (p : Prog A) q :
  keeps p -> keeps q -> keeps (finally p q).
Proof.
  induction p; cbn; intuition; apply keeps_bind; cbn; auto.
Qed.

Lemma releases_finally {A} (p : Prog A) q :
  keeps p -> lowering q -> releases (finally p q).
Proof.
  intros K L. destruct q as [| |f [[]| | |]|]; cbn in L; try contradiction.
  revert K. induction p; cbn; intuition.
Qed.

Lemma advance_keeps (o : Oracle) p s s' ev t :
  keeps p -> advance o p s = (s', ev, t) ->
  flag s' = flag s /\
  match t with
  | Some (Paused_at c k) => forall o', keeps (k o')
  | None => True
  end.
Proof.
  revert s s' ev t. induction p as [a|e|f k IH|c k IH]; cbn; intros s s' ev t K E.
  - injection E as <- <- <-. auto.
  - injection E as <- <- <-. auto.
  - destruct K as [F K]. destruct (f s) as [s1 ev1] eqn:Ef.
    destruct (advance o k s1) as [[s2 ev2] t2] eqn:Ea.
    injection E as <- <- <-.
    destruct (IH _ _ _ _ K Ea) as [E1 E2]. split; [|exact E2].
    rewrite E1. specialize (F s). rewrite Ef in F. exact F.
  - destruct (is_async c).
    + injection E as <- <- <-. auto.
    + destruct (advance o (k (o c)) s) as [[s1 ev1] t1] eqn:Ea.
      injection E as <- <- <-. apply (IH _ _ _ _ _ (K (o c)) Ea).
Qed.

Lemma advance_quiet (o : Oracle) p s s' ev t :
  quiet p -> advance o p s = (s', ev, t) -> flag s' = flag s /\ t = None.
Proof.
  revert s s' ev t. induction p as [a|e|f k IH|c k IH]; cbn; intros s s' ev t K E.
  - injection E as <- <- <-. auto.
  - injection E as <- <- <-. auto.
  - destruct K as [F K]. destruct (f s) as [s1 ev1] eqn:Ef.
    destruct (advance o k s1) as [[s2 ev2] t2] eqn:Ea.
    injection E as <- <- <-.
    destruct (IH _ _ _ _ K Ea) as [E1 E2]. split; [|exact E2].
    rewrite E1. specialize (F s). rewrite Ef in F. exact F.
  - contradiction.
Qed.

Lemma advance_releases (o : Oracle) p s s' ev t :
  releases p -> advance o p s = (s', ev, t) ->
  match t with
  | Some (Paused_at c k) => flag s' = flag s /\ forall o', releases (k o')
  | None => flag s' = false
  end.
Proof.
  revert s s' ev t. induction p as [a|e|f k IH|c k IH]; cbn; intros s s' ev t K E.
  - contradiction.
  - contradiction.
  - destruct (f s) as [s1 ev1] eqn:Ef.
    destruct (advance o k s1) as [[s2 ev2] t2] eqn:Ea.
    injection E as <- <- <-. destruct K as [[F K] | [L Z]].
    + specialize (IH _ _ _ _ K Ea). specialize (F s). rewrite Ef in F.
      cbn in F. destruct t2 as [[c k']|]; [|exact IH].
      destruct IH as [E1 E2]. split; [congruence | exact E2].
    + specialize (L s). rewrite Ef in L. cbn in L.
      destruct k; cbn in Z; try contradiction; cbn in Ea;
        injection Ea as <- <- <-; exact L.
  - destruct (is_async c).
    + injection E as <- <- <-. auto.
    + destruct (advance o (k (o c)) s) as [[s1 ev1] t1] eqn:Ea.
      injection E as <- <- <-. apply (IH _ _ _ _ _ (K (o c)) Ea).
Qed.

Lemma advance_acquires (o : Oracle) p s s' ev t :
  acquires p -> advance o p s = (s', ev, t) ->
  match t with
  | Some (Paused_at c k) => flag s' = true /\ forall o', releases (k o')
  | None => flag s' = false
  end.
Proof.
  destruct p as [a|e|f k|c k]; cbn; try contradiction.
  intros [R K] E. destruct (f s) as [s1 ev1] eqn:Ef.
  destruct (advance o k s1) as [[s2 ev2] t2] eqn:Ea.
  injection E as <- <- <-.
  pose proof (advance_releases o k s1 s2 ev2 t2 K Ea) as H.
  specialize (R s). rewrite Ef in R. cbn in R.
  destruct t2 as [[c k']|]; [|exact H].
  destruct H as [E1 E2]. split; [congruence | exact E2].
Qed.

Lemma Forall_remove_nth {A} (P : A -> Prop) i l :
  Forall P l -> Forall P (remove_nth i l).
Proof.
  intros F. revert i. induction F as [|x l Px F IH]; intros [|i]; cbn; auto.
Qed.

Lemma filter_remove_nth {A} (f : A -> bool) i l x :
  nth_error l i = Some x ->
  List.length (filter f l) =
    (List.length (filter f (remove_nth i l)) + if f x then 1 else 0)%nat.
Proof.
  revert i. induction l as [|y l IH]; intros [|i] E; cbn in E; try discriminate.
  - injection E as ->. cbn. destruct (f x); cbn; lia.
  - cbn. specialize (IH i E). destruct (f y); cbn; lia.
Qed.

Lemma single_flight_step env a (o : Oracle) sys :
  fair env a -> single_flight sys -> single_flight (step env a o sys).
Proof.
  intros Fa [Ft Fc]. unfold step.
  pose proof (Fa (live sys)) as Fd.
  destruct (dispatch env a (live sys)) as [[op p]|] eqn:D.
  - destruct (advance o p (live sys)) as [[s ev] t] eqn:Ea.
    unfold single_flight, in_flight in *. cbn [live pending].
    rewrite filter_app, length_app, Fc. rewrite Forall_app.
    destruct (Op_eqb op mine) eqn:M.
    + destruct Fd as [Q | [Down Acq]].
      * destruct (advance_quiet o p _ _ _ _ Q Ea) as [E1 ->]. cbn.
        rewrite E1. split; [auto | lia].
      * pose proof (advance_acquires o p _ _ _ _ Acq Ea) as H.
        rewrite Down. destruct t as [[c k]|]; cbn.
        -- destruct H as [Up R]. rewrite M, Up. cbn. split; [|reflexivity].
           split; [exact Ft|]. constructor; [|constructor].
           cbn. rewrite M. exact R.
        -- rewrite H. auto.
    + destruct (advance_keeps o p _ _ _ _ Fd Ea) as [E1 K]. rewrite E1.
      destruct t as [[c k]|]; cbn.
      * rewrite M. cbn. split; [|lia]. split; [exact Ft|].
        constructor; [|constructor]. cbn. rewrite M. exact K.
      * split; [auto | lia].
  - destruct a; try (split; assumption).
    destruct (nth_error (pending sys) i) as [[op [c k]]|] eqn:N;
      [|split; assumption].
    destruct (advance o (k (o c)) (live sys)) as [[s ev] t] eqn:Ea.
    unfold single_flight, in_flight in *. cbn [live pending].
    rewrite filter_app, length_app, Forall_app.
    rewrite (filter_remove_nth _ i _ _ N) in Fc. cbn [fst] in Fc.
    assert (Tk : task_ok (op, Paused_at c k)).
    { rewrite Forall_forall in Ft. apply Ft. eapply nth_error_In. exact N. }
    pose proof (Forall_remove_nth task_ok i _ Ft) as Fr.
    cbn in Tk. destruct (Op_eqb op mine) eqn:M.
    + pose proof (advance_releases o _ _ _ _ _ (Tk (o c)) Ea) as H.
      assert (Up : flag (live sys) = true)
        by (destruct (flag (live sys)); [reflexivity | lia]).
      rewrite Up in Fc. destruct t as [[c' k']|]; cbn.
      * destruct H as [E1 R]. rewrite M, E1, Up. cbn. split; [|lia].
        split; [exact Fr|]. constructor; [|constructor]. cbn. rewrite M.
        exact R.
      * rewrite H. split; [auto | lia].
    + destruct (advance_keeps o _ _ _ _ _ (Tk (o c)) Ea) as [E1 K].
      rewrite E1. destruct t as [[c' k']|]; cbn.
      * rewrite M. cbn. split; [|lia]. split; [exact Fr|].
        constructor; [|constructor]. cbn. rewrite M. exact K.
      * split; [auto | lia].
Qed.

Lemma single_flight_exec env sched sys :
  Forall (fun ao => fair env (fst ao)) sched ->
  single_flight sys -> single_flight (exec env sched sys).
Proof.
  revert sys. induction sched as [|[a o] sched IH]; intros sys F I; cbn.
  - exact I.
  - inversion F as [|? ? Fa Fs]; subst. apply IH; [exact Fs|].
    apply single_flight_step; assumption.
Qed.

Lemma single_flight_start s : flag s = false -> single_flight (start s).
Proof.
  intros E. split; [constructor|]. unfold in_flight. cbn. rewrite E.
  reflexivity.
Qed.

Lemma single_flight_bound sys :
  single_flight sys -> (in_flight mine sys <= 1)%nat.
Proof. intros [_ E]. rewrite E. destruct (flag (live sys)); lia. Qed.

End SingleFlight.

(* ================================================================== *)
(** ** The three busy flags *)

Ltac frame_tac :=
  intros ?; unfold updateEncryptedResult, show; cbn;
  repeat match goal with
         | |- context [if ?b then _ else _] => destruct b
         end; reflexivity.

Ltac keeps_step :=
  match goal with
  | |- True => exact I
  | |- _ /\ _ => split
  | |- frames _ _ => solve [frame_tac]
  | |- lowers _ _ => solve [frame_tac]
  | |- raises _ _ => solve [frame_tac]
  | |- lowering _ _ => solve [cbn; frame_tac]
  | |- keeps _ (refreshPlayerData _) => fail 1
  | |- keeps _ (finally _ _) => apply keeps_finally
  | |- keeps _ (try_catch _ _) => apply keeps_try_catch
  | |- keeps _ (bind _ _) => apply keeps_bind
  | |- releases _ (finally _ _) => apply releases_finally
  | |- forall _, _ => intro
  | |- context [match ?x with _ => _ end] => destruct x
  end.

Ltac keeps_tac :=
  repeat first [keeps_step | progress cbn -[refreshPlayerData]].

Ltac acquire_tac :=
  cbn [bind set setIsJoining setIsGuessing setIsDecrypting setStatusMessage
       acquires releases];
  split; [frame_tac|]; left; split; [frame_tac|]; keeps_tac.

Lemma refresh_keeps flag env :
  (forall v s, flag (with_hasJoined v s) = flag s) ->
  (forall v s, flag (with_round v s) = flag s) ->
  (forall v s, flag (with_encryptedResult v s) = flag s) ->
  (forall v s, flag (with_feedbackCode v s) = flag s) ->
  (forall v s, flag (with_lastDecryptedCipher v s) = flag s) ->
  (forall v s, flag (with_statusMessage v s) = flag s) ->
  keeps flag (refreshPlayerData env).
Proof.
  intros H1 H2 H3 H4 H5 H6.
  assert (U : forall l, frames flag (updateEncryptedResult l)).
  { intros l s. unfold updateEncryptedResult.
    destruct (differs (encryptedResult s) l);
      [destruct (truthy_opt l && differs l (Some ZERO_CIPHERTEXT))|];
      cbn; rewrite ?H3, ?H6, ?H5, ?H4; reflexivity. }
  unfold refreshPlayerData, clearPlayerData.
  repeat first
    [ match goal with
      | |- frames _ _ => first [apply U | solve [intros ?; cbn [fst]; auto]]
      end
    | keeps_step | progress cbn ].
Qed.

Lemma refresh_keeps_isJoining env : keeps isJoining (refreshPlayerData env).
Proof. apply refresh_keeps; reflexivity. Qed.

Lemma refresh_keeps_isGuessing env : keeps isGuessing (refreshPlayerData env).
Proof. apply refresh_keeps; reflexivity. Qed.

Lemma refresh_keeps_isDecrypting env :
  keeps isDecrypting (refreshPlayerData env).
Proof. apply refresh_keeps; reflexivity. Qed.

Create HintDb flags.
#[local] Hint Resolve refresh_keeps_isJoining refresh_keeps_isGuessing
  refresh_keeps_isDecrypting : flags.

Lemma join_keeps_isGuessing env : keeps isGuessing (handleJoin env).
Proof. unfold handleJoin. keeps_tac; auto with flags. Qed.

Lemma join_keeps_isDecrypting env : keeps isDecrypting (handleJoin env).
Proof. unfold handleJoin. keeps_tac; auto with flags. Qed.

Lemma guess_keeps_isJoining env s : keeps isJoining (handleGuess env s).
Proof. unfold handleGuess. keeps_tac; auto with flags. Qed.

Lemma guess_keeps_isDecrypting env s : keeps isDecrypting (handleGuess env s).
Proof. unfold handleGuess. keeps_tac; auto with flags. Qed.

Lemma decrypt_keeps_isJoining env s cipher :
  keeps isJoining (decryptCiphertext env s cipher).
Proof. unfold decryptCiphertext. keeps_tac. Qed.

Lemma decrypt_keeps_isGuessing env s cipher :
  keeps isGuessing (decryptCiphertext env s cipher).
Proof. unfold decryptCiphertext. keeps_tac. Qed.

Lemma manual_keeps_isJoining env s : keeps isJoining (manualDecrypt env s).
Proof.
  unfold manualDecrypt.
  destruct (encryptedResult s) as [c|]; [|keeps_tac].
  destruct (negb (truthy c) || String.eqb c ZERO_CIPHERTEXT); [keeps_tac|].
  destruct (negb (isContractConfigured env)); [keeps_tac|].
  apply decrypt_keeps_isJoining.
Qed.

Lemma manual_keeps_isGuessing env s : keeps isGuessing (manualDecrypt env s).
Proof.
  unfold manualDecrypt.
  destruct (encryptedResult s) as [c|]; [|keeps_tac].
  destruct (negb (truthy c) || String.eqb c ZERO_CIPHERTEXT); [keeps_tac|].
  destruct (negb (isContractConfigured env)); [keeps_tac|].
  apply decrypt_keeps_isGuessing.
Qed.

(** [handleJoin] raises [isJoining] whatever the flag is. *)
Lemma join_acquires env :
  quiet isJoining (handleJoin env) \/ acquires isJoining (handleJoin env).
Proof.
  unfold handleJoin.
  destruct (account env); [|left; cbn; split; [frame_tac | exact I]].
  destruct (negb (isContractConfigured env));
    [left; cbn; split; [frame_tac | exact I]|].
  right. acquire_tac; auto with flags.
Qed.

(** [handleGuess] raises [isGuessing] whatever the flag is. *)
Lemma guess_acquires env s :
  quiet isGuessing (handleGuess env s) \/
  acquires isGuessing (handleGuess env s).
Proof.
  unfold handleGuess.
  destruct (account env); [|left; cbn; split; [frame_tac | exact I]].
  destruct (negb (isContractConfigured env));
    [left; cbn; split; [frame_tac | exact I]|].
  destruct (negb (hasJoined s)); [left; cbn; split; [frame_tac | exact I]|].
  destruct (invalidGuess (guessNumber s));
    [left; cbn; split; [frame_tac | exact I]|].
  destruct (negb (instance env)); [left; cbn; split; [frame_tac | exact I]|].
  right. acquire_tac; auto with flags.
Qed.

(** [decryptCiphertext] looks at [isDecrypting] before it raises it. *)
Lemma decrypt_acquires env s cipher :
  quiet isDecrypting (decryptCiphertext env s cipher) \/
  (isDecrypting s = false /\
   acquires isDecrypting (decryptCiphertext env s cipher)).
Proof.
  unfold decryptCiphertext.
  destruct (account env); [|left; exact I].
  destruct (negb (instance env) || negb (isContractConfigured env));
    [left; exact I|].
  destruct (isDecrypting s) eqn:B; [left; exact I|].
  right. split; [reflexivity|]. acquire_tac.
Qed.

Lemma manual_acquires env s :
  quiet isDecrypting (manualDecrypt env s) \/
  (isDecrypting s = false /\ acquires isDecrypting (manualDecrypt env s)).
Proof.
  unfold manualDecrypt.
  destruct (encryptedResult s) as [c|];
    [|left; cbn; split; [frame_tac | exact I]].
  destruct (negb (truthy c) || String.eqb c ZERO_CIPHERTEXT);
    [left; cbn; split; [frame_tac | exact I]|].
  destruct (negb (isContractConfigured env));
    [left; cbn; split; [frame_tac | exact I]|].
  apply decrypt_acquires.
Qed.

Lemma every_action_fair_isDecrypting env a :
  fair isDecrypting OpDecrypt env a.
Proof.
  intros s. destruct a; cbn.
  - auto with flags.
  - apply join_keeps_isDecrypting.
  - apply guess_keeps_isDecrypting.
  - apply decrypt_acquires.
  - apply manual_acquires.
  - destruct (joinDisabled env s); [exact I | apply join_keeps_isDecrypting].
  - destruct (guessDisabled env s); [exact I | apply guess_keeps_isDecrypting].
  - destruct (decryptDisabled env s); [left; exact I | apply manual_acquires].
  - split; [frame_tac | exact I].
  - exact I.
Qed.

Lemma button_fair_isJoining env a :
  through_buttons a = true -> fair isJoining OpJoin env a.
Proof.
  intros T s. destruct a; cbn; try discriminate.
  - auto with flags.
  - apply decrypt_keeps_isJoining.
  - apply manual_keeps_isJoining.
  - unfold joinDisabled. destruct (isJoining s) eqn:B; cbn; [left; exact I|].
    destruct (_ || _); [left; exact I|].
    destruct (join_acquires env); auto.
  - destruct (guessDisabled env s); [exact I | apply guess_keeps_isJoining].
  - destruct (decryptDisabled env s); [exact I | apply manual_keeps_isJoining].
  - split; [frame_tac | exact I].
  - exact I.
Qed.

Lemma button_fair_isGuessing env a :
  through_buttons a = true -> fair isGuessing OpGuess env a.
Proof.
  intros T s. destruct a; cbn; try discriminate.
  - auto with flags.
  - apply decrypt_keeps_isGuessing.
  - apply manual_keeps_isGuessing.
  - destruct (joinDisabled env s); [exact I | apply join_keeps_isGuessing].
  - unfold guessDisabled. destruct (isGuessing s) eqn:B; cbn; [left; exact I|].
    destruct (_ || _); [left; exact I|].
    destruct (guess_acquires env s); auto.
  - destruct (decryptDisabled env s); [exact I | apply manual_keeps_isGuessing].
  - split; [frame_tac | exact I].
  - exact I.
Qed.

(* ================================================================== *)
(** ** Single flight *)

(** C5. Decryptions are serialized by [isDecrypting].  A call of
    [decryptCiphertext] made while the flag is up does nothing at all.
    Whatever is called or clicked, in whatever order the pending calls
    settle, at most one decryption is in flight, and the flag is up exactly
    while one is.  Two calls in a row followed by the answers of the
    signer, the wallet and the authority make one request to the
    authority. *)
Theorem decrypt_is_single_flight :
  (forall env s cipher (o : Oracle),
     isDecrypting s = true ->
     silent s (run o (decryptCiphertext env s cipher) s) /\
     advance o (decryptCiphertext env s cipher) s = (s, [], None)) /\
  (forall env sched s0,
     isDecrypting s0 = false ->
     let sys := exec env sched (start s0) in
     (in_flight OpDecrypt sys <= 1)%nat /\
     in_flight OpDecrypt sys =
       if isDecrypting (live sys) then 1%nat else 0%nat) /\
  (forall env acct (o : Oracle) s0 cipher response,
     account env = Some acct ->
     instance env = true ->
     isContractConfigured env = true ->
     isDecrypting s0 = false ->
     decrypt_answers env acct o cipher true (Resolved response) ->
     let twice :=
       exec env [(CallDecrypt cipher, o); (CallDecrypt cipher, o)] (start s0) in
     let settled :=
       exec env [(Settle 0, o); (Settle 0, o); (Settle 0, o)] twice in
     in_flight OpDecrypt twice = 1%nat /\
     requests is_userDecrypt settled = 1%nat /\
     in_flight OpDecrypt settled = 0%nat /\
     isDecrypting (live settled) = false).
Proof.
  split; [|split].
  - intros env s cipher o B. unfold decryptCiphertext, silent.
    destruct (account env); [|cbn; auto].
    destruct (negb (instance env) || negb (isContractConfigured env));
      [cbn; auto|].
    rewrite B. cbn. auto.
  - intros env sched s0 B sys.
    assert (I : single_flight isDecrypting OpDecrypt sys).
    { apply single_flight_exec.
      - apply Forall_forall. intros ao _. apply every_action_fair_isDecrypting.
      - apply single_flight_start. exact B. }
    split; [apply (single_flight_bound _ _ _ I) | apply I].
  - intros env acct o s0 cipher response A E C B
      (pk & sk & now & eip & sig & A1 & A2 & A3 & A4 & A5 & A6).
    unfold exec, step, start, dispatch, decryptCiphertext. cbn [live pending trace].
    rewrite A, E, C, B. cbn. rewrite A1. cbn. rewrite A2. cbn. rewrite A3. cbn.
    rewrite A4. cbn. rewrite A5. cbn. rewrite A6. cbn.
    unfold in_flight, requests.
    destruct (rawValue response cipher) as [raw|]; cbn;
      [destruct (isInteger (Number raw)); cbn|]; auto.
Qed.

Lemma disabled_click_is_ignored env a (o : Oracle) sys op :
  dispatch env a (live sys) = Some (op, Ret tt) -> step env a o sys = sys.
Proof.
  intros D. unfold step. rewrite D. cbn. rewrite !app_nil_r.
  destruct sys; reflexivity.
Qed.

(** C2. Join and guess are single-flight per kind, by their busy flags.
    Each handler raises its flag before its first [await] and lowers it when
    it ends, and its button is disabled while the flag is up.  So whatever
    is clicked and in whatever order the pending calls settle, at most one
    join and at most one guess are in flight, the flag of a kind is up
    exactly while one is, and a click on the button of a kind while one is
    pending is ignored: the state, the pending handlers and the requests
    made are as they were, no second transaction is sent. *)
Theorem buttons_are_single_flight env sched s0 :
  isJoining s0 = false ->
  isGuessing s0 = false ->
  Forall (fun ao : Action * Oracle => through_buttons (fst ao) = true) sched ->
  let sys := exec env sched (start s0) in
  (in_flight OpJoin sys <= 1)%nat /\
  (in_flight OpGuess sys <= 1)%nat /\
  in_flight OpJoin sys = (if isJoining (live sys) then 1%nat else 0%nat) /\
  in_flight OpGuess sys = (if isGuessing (live sys) then 1%nat else 0%nat) /\
  (forall o, isJoining (live sys) = true -> step env ClickJoin o sys = sys) /\
  (forall o, isGuessing (live sys) = true -> step env ClickGuess o sys = sys) /\
  (forall o, in_flight OpJoin sys = 1%nat -> step env ClickJoin o sys = sys) /\
  (forall o, in_flight OpGuess sys = 1%nat -> step env ClickGuess o sys = sys).
Proof.
  intros J G F sys.
  assert (IJ : single_flight isJoining OpJoin sys).
  { apply single_flight_exec; [|apply single_flight_start; exact J].
    eapply Forall_impl; [|exact F]. intros [a o] T.
    apply button_fair_isJoining. exact T. }
  assert (IG : single_flight isGuessing OpGuess sys).
  { apply single_flight_exec; [|apply single_flight_start; exact G].
    eapply Forall_impl; [|exact F]. intros [a o] T.
    apply button_fair_isGuessing. exact T. }
  assert (CJ : forall o, isJoining (live sys) = true ->
                         step env ClickJoin o sys = sys).
  { intros o B. apply disabled_click_is_ignored with (op := OpJoin).
    cbn. unfold joinDisabled. rewrite B. reflexivity. }
  assert (CG : forall o, isGuessing (live sys) = true ->
                         step env ClickGuess o sys = sys).
  { intros o B. apply disabled_click_is_ignored with (op := OpGuess).
    cbn. unfold guessDisabled. rewrite B. reflexivity. }
  split; [apply (single_flight_bound _ _ _ IJ)|].
  split; [apply (single_flight_bound _ _ _ IG)|].
  split; [apply IJ|]. split; [apply IG|].
  split; [exact CJ|]. split; [exact CG|]. split.
  - intros o P. apply CJ. destruct IJ as [_ E]. rewrite P in E.
    destruct (isJoining (live sys)); [reflexivity | discriminate].
  - intros o P. apply CG. destruct IG as [_ E]. rewrite P in E.
    destruct (isGuessing (live sys)); [reflexivity | discriminate].
Qed.

(** Two clicks on the join button, the signer and the transaction
    answering in between, send one [joinGame]; two clicks on the guess
    button send one [submitGuess]. *)
Example double_click_sends_once :
  let o := answers true 1 None true None in
  let joins :=
    exec env0 [(ClickJoin, o); (ClickJoin, o); (Settle 0, o); (ClickJoin, o);
               (Settle 0, o); (ClickJoin, o)] (start initial) in
  let guesses :=
    exec env0 [(ClickGuess, o); (ClickGuess, o); (Settle 0, o);
               (ClickGuess, o); (Settle 0, o); (ClickGuess, o);
               (Settle 0, o); (ClickGuess, o)] (start readyToGuess) in
  (in_flight OpJoin joins = 1%nat /\ requests is_joinGame joins = 1%nat) /\
  (in_flight OpGuess guesses = 1%nat /\
   requests is_submitGuess guesses = 1%nat).
Proof. vm_compute. repeat split. Qed.

(* ================================================================== *)
(** ** The theorems at work *)

Lemma reads_of_answers j r l sg rs :
  reads_resolved env0 ACCOUNT0 (answers j r l sg rs) j r l.
Proof. repeat split. Defined.

Lemma decrypt_of_answers j r l sg rs cipher :
  decrypt_answers env0 ACCOUNT0 (answers j r l sg rs) cipher sg (Resolved rs).
Proof.
  exists "pub", "priv", 1700000000000%Z,
    {| domain := "domain"; types_UserDecryptRequestVerification := "types";
       message := "message" |}, "0x51".
  repeat split.
Defined.

(** A guess of 11 from a joined session is refused with the range message. *)
Lemma guess_requires_join_and_range_witness :
  let s := with_guessValue (lit "11") (with_hasJoined true initial) in
  run unreachable (handleGuess env0 s) s =
    (Returned tt, with_statusMessage (Some MSG_INVALID_GUESS) s,
     [EStatus MSG_INVALID_GUESS]).
Proof.
  intros s.
  refine (proj2 (proj1 (proj2 (guess_requires_join_and_range env0 unreachable s)) _)
            _ eq_refl eq_refl).
  - intros V. apply invalidGuess_spec in V. vm_compute in V. discriminate.
  - discriminate.
Defined.

(** A second click on the join button while the first join waits for its
    transaction changes nothing: no handler is started, no request made. *)
Lemma buttons_are_single_flight_witness :
  let o := answers true 1 None true None in
  let sys := exec env0 [(ClickJoin, o); (Settle 0, o)] (start initial) in
  in_flight OpJoin sys = 1%nat /\ step env0 ClickJoin o sys = sys.
Proof.
  intros o sys. split; [reflexivity|].
  refine (proj1 (proj2 (proj2 (proj2 (proj2 (proj2 (proj2
            (buttons_are_single_flight env0 [(ClickJoin, o); (Settle 0, o)]
               initial eq_refl eq_refl _))))))) o eq_refl).
  repeat constructor.
Defined.

(** A refresh whose reads fail leaves the joined session as it was; one
    whose reads resolve installs what they returned. *)
Lemma refresh_is_atomic_witness :
  final (run unreachable (refreshPlayerData env0) revealed) = revealed /\
  hasJoined (final (run (answers true 3 (Some HANDLE1) true None)
                      (refreshPlayerData env0) initial)) = true.
Proof.
  split.
  - refine (proj1 (proj2 (proj2 (refresh_is_atomic env0 ACCOUNT0
              eq_refl eq_refl eq_refl unreachable revealed)) _)).
    left. exists (ErrorObj "network down"). reflexivity.
  - refine (proj1 (proj1 (proj2 (refresh_is_atomic env0 ACCOUNT0
              eq_refl eq_refl eq_refl
              (answers true 3 (Some HANDLE1) true None) initial))
              true 3%Z (Some HANDLE1) (reads_of_answers _ _ _ _ _))).
Defined.

(** The first result of a session clears nothing that was there and is
    announced. *)
Lemma refresh_detects_change_witness :
  let out := run (answers true 1 (Some HANDLE1) true None)
               (refreshPlayerData env0) initial in
  existsb (is_status_of MSG_RESULT_READY) (events out) = true.
Proof.
  intros out.
  refine (proj2 (proj1 (proj2 (refresh_detects_change env0 ACCOUNT0
            eq_refl eq_refl eq_refl (answers true 1 (Some HANDLE1) true None)
            initial true 1%Z (Some HANDLE1) (reads_of_answers _ _ _ _ _) _))) _).
  - discriminate.
  - repeat split; discriminate.
Defined.

(** Two decryptions called in a row make one request to the authority. *)
Lemma decrypt_is_single_flight_witness :
  let o := answers true 1 (Some HANDLE1) true (Some [(HANDLE1, lit "2")]) in
  let twice :=
    exec env0 [(CallDecrypt HANDLE1, o); (CallDecrypt HANDLE1, o)]
      (start pendingResult) in
  requests is_userDecrypt
    (exec env0 [(Settle 0, o); (Settle 0, o); (Settle 0, o)] twice) = 1%nat.
Proof.
  intros o twice.
  refine (proj1 (proj2 (proj2 (proj2 decrypt_is_single_flight) env0 ACCOUNT0 o
            pendingResult HANDLE1 (Some [(HANDLE1, lit "2")])
            eq_refl eq_refl eq_refl eq_refl (decrypt_of_answers _ _ _ _ _ _)))).
Defined.

(** The authority answers with two entries, 4 under another handle and
    then 2 under the requested one: the feedback is 2.  It answers with the
    other entry alone: the feedback is that entry's 4. *)
Lemma decrypt_extracts_value_witness :
  let both := Some [(HANDLE2, lit "4"); (HANDLE1, lit "2")] in
  let other := Some [(HANDLE2, lit "4")] in
  let run_with response :=
    run (answers true 1 (Some HANDLE1) true response)
      (decryptCiphertext env0 pendingResult HANDLE1) pendingResult in
  (feedbackCode (final (run_with both)) = Some (of_int 2) /\
   lastDecryptedCipher (final (run_with both)) = Some HANDLE1 /\
   statusMessage (final (run_with both)) = Some MSG_DECODED) /\
  (feedbackCode (final (run_with other)) = Some (of_int 4) /\
   lastDecryptedCipher (final (run_with other)) = Some HANDLE1 /\
   statusMessage (final (run_with other)) = Some MSG_DECODED).
Proof.
  intros both other run_with. split.
  - refine (proj1 (proj2 (decrypt_extracts_value env0 ACCOUNT0
              eq_refl eq_refl eq_refl
              (answers true 1 (Some HANDLE1) true both) pendingResult HANDLE1
              both eq_refl (decrypt_of_answers _ _ _ _ _ _)))
              [(HANDLE2, lit "4"); (HANDLE1, lit "2")] (lit "2")
              eq_refl _ _ _).
    + repeat constructor; cbn; intuition discriminate.
    + right. left. reflexivity.
    + discriminate.
  - refine (proj1 (proj2 (proj2 (decrypt_extracts_value env0 ACCOUNT0
              eq_refl eq_refl eq_refl
              (answers true 1 (Some HANDLE1) true other) pendingResult HANDLE1
              other eq_refl (decrypt_of_answers _ _ _ _ _ _))))
              HANDLE2 (lit "4") [] eq_refl _ _).
    + intros w [E | []]. discriminate.
    + discriminate.
Defined.

(** The feedback 2 of a handle survives a refresh that reads the handle. *)
Lemma refresh_same_handle_keeps_feedback_witness :
  let o := answers true 1 (Some HANDLE1) true None in
  feedbackCode (final (run o (refreshPlayerData env0) revealed))
    = Some (of_int 2).
Proof.
  intros o.
  exact (proj1 (proj1 (refresh_same_handle_keeps_feedback env0 ACCOUNT0
           eq_refl eq_refl eq_refl) o revealed 1%Z (reads_of_answers _ _ _ _ _))).
Defined.

(** The feedback 2 is cleared by a refresh that finds the account not
    joined, the handle being the same. *)
Lemma refresh_not_joined_clears_feedback_witness :
  let o := answers false 1 (Some HANDLE1) true None in
  feedbackCode (final (run o (refreshPlayerData env0) revealed)) = None.
Proof.
  intros o.
  exact (proj1 (refresh_not_joined_clears_feedback env0 ACCOUNT0
           eq_refl eq_refl eq_refl o revealed 1%Z (Some HANDLE1)
           (reads_of_answers _ _ _ _ _))).
Defined.

(** Without an account a decryption is silent, a join is not. *)
Lemma decrypt_is_silent_without_prerequisites_witness :
  let env := {| address := None; publicClient := true; instance := true;
                isZamaLoading := false; CONTRACT_ADDRESS := "0xC0DE" |} in
  silent pendingResult
    (run unreachable (decryptCiphertext env pendingResult HANDLE1)
       pendingResult) /\
  shows MSG_JOIN_NO_WALLET (run unreachable (handleJoin env) pendingResult).
Proof.
  intros env.
  pose (T := decrypt_is_silent_without_prerequisites env unreachable
               pendingResult HANDLE1).
  split.
  - exact (proj1 T (or_intror (or_introl eq_refl))).
  - exact (proj1 (proj2 T) eq_refl).
Defined.

(** The guess 0x7 is taken and sent as the number 7. *)
Lemma guess_uses_number_conversion_witness :
  let s := with_guessValue (lit "0x7") (with_hasJoined true initial) in
  accepted env0 ACCOUNT0 (answers true 1 None true None) s.
Proof.
  intros s.
  refine (proj1 (proj2 (guess_uses_number_conversion env0 ACCOUNT0
            eq_refl eq_refl eq_refl (answers true 1 None true None) s eq_refl))
            7%Z _ eq_refl).
  lia.
Defined.

(* ================================================================== *)
(** ** Further properties of the handlers *)

Lemma never_throws_bind {A B} (p : Prog A) (q : A -> Prog B) :
  never_throws p -> (forall a, never_throws (q a)) -> never_throws (bind p q).
Proof. induction p; cbn; intuition. Qed.

Lemma never_throws_try_catch {A} (p : Prog A) h :
  (forall e, never_throws (h e)) -> never_throws (try_catch p h).
Proof. induction p; cbn; intuition. Qed.

Lemma never_throws_finally {A} (p : Prog A) q :
  never_throws p -> never_throws q -> never_throws (finally p q).
Proof.
  induction p; cbn; intuition. apply never_throws_bind; cbn; auto.
Qed.

Lemma run_never_throws {A} (o : Oracle) (p : Prog A) s :
  never_throws p -> exists a, completion (run o p s) = Returned a.
Proof.
  revert s. induction p as [a|e|f k IH|c k IH]; cbn; intros s N.
  - eauto.
  - contradiction.
  - destruct (f s) as [s1 ev]. destruct (IH s1 N) as [a E].
    destruct (run o k s1) as [[r s2] ev']. exists a. exact E.
  - destruct (IH (o c) s (N (o c))) as [a E].
    destruct (run o (k (o c)) s) as [[r s1] ev]. exists a. exact E.
Qed.

Lemma only_calls_bind P {A B} (p : Prog A) (q : A -> Prog B) :
  only_calls P p -> (forall a, only_calls P (q a)) -> only_calls P (bind p q).
Proof. induction p; cbn; intuition. Qed.

Lemma only_calls_try_catch P {A} (p : Prog A) h :
  only_calls P p -> (forall e, only_calls P (h e)) ->
  only_calls P (try_catch p h).
Proof. induction p; cbn; intuition. Qed.

Lemma only_calls_finally P {A} (p : Prog A) q :
  only_calls P p -> only_calls P q -> only_calls P (finally p q).
Proof.
  induction p; cbn; intuition; apply only_calls_bind; cbn; auto.
Qed.

Lemma only_calls_weaken (P Q : Call -> Prop) {A} (p : Prog A) :
  (forall c, P c -> Q c) -> only_calls P p -> only_calls Q p.
Proof.
  intros PQ. induction p as [a|e|f k IH|c k IH]; cbn; auto.
  - intros [F K]. split; [|auto]. intros s. specialize (F s).
    eapply Forall_impl; [|exact F]. intros [c| |]; cbn; auto.
  - intros [Pc K]. split; auto.
Qed.

Lemma run_only_calls P {A} (o : Oracle) (p : Prog A) s :
  only_calls P p ->
  forall c, In (ERequest c) (events (run o p s)) -> P c.
Proof.
  revert s. induction p as [a|e|f k IH|c k IH]; cbn; intros s K c' H.
  - contradiction.
  - contradiction.
  - destruct K as [F K]. specialize (F s). destruct (f s) as [s1 ev].
    specialize (IH s1 K c'). destruct (run o k s1) as [[r s2] ev'].
    cbn in *. apply in_app_or in H. destruct H as [H|H]; [|auto].
    rewrite Forall_forall in F. apply (F _ H).
  - destruct K as [Pc K]. specialize (IH (o c) s (K (o c)) c').
    destruct (run o (k (o c)) s) as [[r s1] ev]. cbn in *.
    destruct H as [H|H]; [injection H as <-; exact Pc | auto].
Qed.

Lemma run_keeps flag {A} (o : Oracle) (p : Prog A) s :
  keeps flag p -> flag (final (run o p s)) = flag s.
Proof.
  revert s. induction p as [a|e|f k IH|c k IH]; cbn; intros s K; auto.
  - destruct K as [F K]. specialize (F s). destruct (f s) as [s1 ev].
    specialize (IH s1 K). destruct (run o k s1) as [[r s2] ev'].
    cbn in *. congruence.
  - specialize (IH (o c) s (K (o c))).
    destruct (run o (k (o c)) s) as [[r s1] ev]. exact IH.
Qed.

Lemma run_releases flag {A} (o : Oracle) (p : Prog A) s :
  releases flag p -> flag (final (run o p s)) = false.
Proof.
  revert s. induction p as [a|e|f k IH|c k IH]; cbn; intros s K;
    try contradiction.
  - destruct (f s) as [s1 ev] eqn:Ef. destruct K as [[F K] | [Lw Z]].
    + specialize (IH s1 K). destruct (run o k s1) as [[r s2] ev']. exact IH.
    + specialize (Lw s). rewrite Ef in Lw.
      destruct k; cbn in Z; try contradiction; cbn; exact Lw.
  - specialize (IH (o c) s (K (o c))).
    destruct (run o (k (o c)) s) as [[r s1] ev]. exact IH.
Qed.

Lemma run_acquires flag {A} (o : Oracle) (p : Prog A) s :
  acquires flag p -> flag (final (run o p s)) = false.
Proof.
  destruct p as [a|e|f k|c k]; cbn; try contradiction.
  intros [_ K]. destruct (f s) as [s1 ev].
  pose proof (run_releases flag o k s1 K) as H.
  destruct (run o k s1) as [[r s2] ev']. exact H.
Qed.

Lemma run_quiet flag {A} (o : Oracle) (p : Prog A) s :
  quiet flag p -> flag (final (run o p s)) = flag s.
Proof. intros Q. apply run_keeps. apply quiet_keeps. exact Q. Qed.

Ltac nt_step :=
  match goal with
  | |- True => exact I
  | |- _ /\ _ => split
  | |- never_throws (refreshPlayerData _) => fail 1
  | |- never_throws (finally _ _) => apply never_throws_finally
  | |- never_throws (try_catch _ _) => apply never_throws_try_catch
  | |- forall _, _ => intro
  | |- context [match ?x with _ => _ end] => destruct x
  end.

Ltac nt_tac := repeat first [nt_step | progress cbn -[refreshPlayerData]].

Lemma refresh_never_throws env : never_throws (refreshPlayerData env).
Proof. unfold refreshPlayerData, clearPlayerData. repeat first [nt_step | progress cbn]. Qed.

Lemma join_never_throws env : never_throws (handleJoin env).
Proof. unfold handleJoin. nt_tac. Qed.

Lemma guess_never_throws env s : never_throws (handleGuess env s).
Proof. unfold handleGuess. nt_tac. Qed.

Lemma decrypt_never_throws env s cipher :
  never_throws (decryptCiphertext env s cipher).
Proof. unfold decryptCiphertext. nt_tac. Qed.

Lemma manual_never_throws env s : never_throws (manualDecrypt env s).
Proof.
  unfold manualDecrypt. destruct (encryptedResult s) as [c|]; [|exact I].
  destruct (_ || _); [exact I|]. destruct (negb _); [exact I|].
  apply decrypt_never_throws.
Qed.

Lemma returns_unit (o : Oracle) (p : Prog unit) s :
  never_throws p -> completion (run o p s) = Returned tt.
Proof. intros N. destruct (run_never_throws o p s N) as [[] E]. exact E. Qed.

(** X1. No handler lets an error escape: whatever the collaborators answer,
    the refresh, the join, the guess and both decryptions run to their end
    and return; and a handler started with its busy flag down ends with the
    flag down. *)
Theorem handlers_return_and_release env (o : Oracle) s cipher :
  completion (run o (refreshPlayerData env) s) = Returned tt /\
  completion (run o (handleJoin env) s) = Returned tt /\
  completion (run o (handleGuess env s) s) = Returned tt /\
  completion (run o (decryptCiphertext env s cipher) s) = Returned tt /\
  completion (run o (manualDecrypt env s) s) = Returned tt /\
  (isJoining s = false ->
     isJoining (final (run o (handleJoin env) s)) = false) /\
  (isGuessing s = false ->
     isGuessing (final (run o (handleGuess env s) s)) = false) /\
  (isDecrypting s = false ->
     isDecrypting (final (run o (decryptCiphertext env s cipher) s)) = false /\
     isDecrypting (final (run o (manualDecrypt env s) s)) = false).
Proof.
  repeat match goal with |- _ /\ _ => split end.
  - apply returns_unit, refresh_never_throws.
  - apply returns_unit, join_never_throws.
  - apply returns_unit, guess_never_throws.
  - apply returns_unit, decrypt_never_throws.
  - apply returns_unit, manual_never_throws.
  - intros B. destruct (join_acquires env) as [Q | Q].
    + rewrite (run_quiet _ _ _ _ Q). exact B.
    + apply run_acquires. exact Q.
  - intros B. destruct (guess_acquires env s) as [Q | Q].
    + rewrite (run_quiet _ _ _ _ Q). exact B.
    + apply run_acquires. exact Q.
  - intros B. split.
    + destruct (decrypt_acquires env s cipher) as [Q | [_ Q]].
      * rewrite (run_quiet _ _ _ _ Q). exact B.
      * apply run_acquires. exact Q.
    + destruct (manual_acquires env s) as [Q | [_ Q]].
      * rewrite (run_quiet _ _ _ _ Q). exact B.
      * apply run_acquires. exact Q.
Qed.

Lemma update_allowed P l s :
  Forall (allowed P) (snd (updateEncryptedResult l s)).
Proof.
  unfold updateEncryptedResult.
  destruct (differs _ _); [destruct (_ && _)|]; cbn; repeat constructor.
Qed.

Ltac oc_step :=
  match goal with
  | |- True => exact I
  | |- Forall _ _ => solve [repeat constructor | apply update_allowed]
  | |- only_calls _ (refreshPlayerData _) => fail 1
  | |- only_calls _ (finally _ _) => apply only_calls_finally
  | |- only_calls _ (try_catch _ _) => apply only_calls_try_catch
  | |- only_calls _ (if ?b then _ else _) => destruct b
  | |- only_calls _ (match ?x with _ => _ end) => destruct x
  | |- _ /\ _ => split
  | |- forall _ : Outcome _, _ => let o := fresh "o" in intro o; destruct o
  | |- forall _ : State, _ => intro
  | |- forall _ : JSError, _ => intro
  end.

Ltac oc_tac :=
  repeat first [progress cbn -[refreshPlayerData] | oc_step].

Section Calls.

Variable P : Call -> Prop.
Variable env : Env.

Lemma refresh_calls_reads :
  (forall acct, account env = Some acct ->
     P (ReadHasJoined (contractAddress env) acct) /\
     P (ReadGetRound (contractAddress env) acct) /\
     P (ReadGetLatestResult (contractAddress env) acct)) ->
  only_calls P (refreshPlayerData env).
Proof.
  intros H. unfold refreshPlayerData, clearPlayerData.
  destruct (account env) as [acct|]; [|oc_tac].
  destruct (H acct eq_refl) as (H1 & H2 & H3).
  destruct (_ || _); repeat first [assumption | progress cbn | oc_step].
Qed.

Lemma decrypt_calls s cipher :
  P GenerateKeypair -> P DateNow -> P ResolveSigner ->
  (forall pk start, P (CreateEIP712 pk [contractAddress env] start "10")) ->
  (forall payload, P (SignTypedData payload)) ->
  (forall acct sk pk sig start,
     account env = Some acct ->
     P (UserDecrypt cipher (contractAddress env) sk pk sig
          [contractAddress env] acct start "10")) ->
  only_calls P (decryptCiphertext env s cipher).
Proof.
  intros H1 H2 H3 H4 H5 H6. unfold decryptCiphertext.
  destruct (account env) as [acct|]; [|exact I].
  specialize (fun sk pk sig start => H6 acct sk pk sig start eq_refl).
  destruct (_ || _); [exact I|]. destruct (isDecrypting s); [exact I|].
  repeat first [assumption | apply H4 | apply H5 | apply H6
               | progress cbn | oc_step].
Qed.

Lemma join_calls :
  P ResolveSigner -> P (SendJoinGame (contractAddress env)) ->
  (forall tx, P (WaitTx tx)) ->
  only_calls P (refreshPlayerData env) ->
  only_calls P (handleJoin env).
Proof.
  intros H1 H2 H3 H4. unfold handleJoin.
  repeat first [assumption | apply H3
               | progress cbn -[refreshPlayerData] | oc_step].
Qed.

Lemma guess_calls s :
  P ResolveSigner ->
  (forall acct, account env = Some acct -> hasJoined s = true ->
     invalidGuess (guessNumber s) = false ->
     P (EncryptInput (contractAddress env) acct (guessNumber s))) ->
  (forall h proof, P (SendSubmitGuess (contractAddress env) h proof)) ->
  (forall tx, P (WaitTx tx)) ->
  only_calls P (refreshPlayerData env) ->
  only_calls P (handleGuess env s).
Proof.
  intros H1 H2 H3 H4 H5. unfold handleGuess.
  destruct (account env) as [acct|]; [|oc_tac].
  specialize (H2 acct eq_refl).
  destruct (negb _); [oc_tac|].
  destruct (hasJoined s); [|oc_tac]. cbn [negb].
  destruct (invalidGuess (guessNumber s)); [oc_tac|].
  specialize (H2 eq_refl eq_refl).
  destruct (negb _); [oc_tac|].
  repeat first [assumption | apply H3 | apply H4
               | progress cbn -[refreshPlayerData] | oc_step].
Qed.

End Calls.

Lemma refresh_only_refresh_calls env :
  only_calls (refresh_call env) (refreshPlayerData env).
Proof.
  apply refresh_calls_reads. intros acct A. unfold refresh_call. cbn. auto.
Qed.

(** X2. A refresh calls nothing but the three views [hasJoined],
    [getRound] and [getLatestResult], each on the configured contract and
    for the connected account: it sends no transaction and asks for no
    signature. *)
Theorem refresh_only_reads env (o : Oracle) s c :
  In (ERequest c) (events (run o (refreshPlayerData env) s)) ->
  refresh_call env c.
Proof. apply run_only_calls. apply refresh_only_refresh_calls. Qed.

Lemma decrypt_only_decrypt_calls env s cipher :
  only_calls (decrypt_call env cipher) (decryptCiphertext env s cipher).
Proof. apply decrypt_calls; unfold decrypt_call; cbn; auto 10. Qed.

(** X3. A decryption reads no contract, sends no transaction and encrypts
    nothing; what it asks the authority is the handle it was given, for the
    configured contract and the connected account, for ten days. *)
Theorem decrypt_asks_for_its_cipher_only env (o : Oracle) s cipher c :
  In (ERequest c) (events (run o (decryptCiphertext env s cipher) s)) ->
  decrypt_call env cipher c.
Proof. apply run_only_calls. apply decrypt_only_decrypt_calls. Qed.

(** X4. The decrypt button calls a collaborator only when the stored
    handle is there, is not empty and is not the zero ciphertext, and the
    contract is configured; its calls are then those of a decryption of the
    stored handle. *)
Theorem manualDecrypt_skips_the_sentinel env (o : Oracle) s c :
  In (ERequest c) (events (run o (manualDecrypt env s) s)) ->
  exists cipher,
    encryptedResult s = Some cipher /\
    cipher <> EmptyString /\ cipher <> ZERO_CIPHERTEXT /\
    isContractConfigured env = true /\
    decrypt_call env cipher c.
Proof.
  unfold manualDecrypt. destruct (encryptedResult s) as [cipher|];
    [|cbn; intros [H|[]]; discriminate].
  destruct cipher as [|a t]; [cbn; intros [H|[]]; discriminate|].
  cbn [truthy negb orb].
  destruct (String.eqb_spec (String a t) ZERO_CIPHERTEXT) as [E|NE];
    [cbn; intros [H|[]]; discriminate|].
  destruct (isContractConfigured env) eqn:C;
    [|cbn; intros [H|[]]; discriminate].
  cbn [negb]. intros H. exists (String a t).
  repeat split; try congruence.
  all: apply (run_only_calls _ o _ s
                (decrypt_only_decrypt_calls env s (String a t)) c H).
Qed.

(** X5. A join never submits a guess, never encrypts, never asks the
    authority and never signs typed data; its transaction goes to the
    configured contract and its reads are those of a refresh. *)
Theorem join_sends_joinGame_only env (o : Oracle) s c :
  In (ERequest c) (events (run o (handleJoin env) s)) -> join_call env c.
Proof.
  apply run_only_calls. apply join_calls; unfold join_call; cbn; auto 10.
  eapply only_calls_weaken; [|apply refresh_only_refresh_calls].
  intros c' H. pose proof H as [R _].
  destruct c'; cbn in R; try discriminate; cbn; auto 10.
Qed.

(** X6. A guess never sends [joinGame] and never asks the authority; what
    it encrypts is the number of the trimmed text of the render it was
    started from, an integer from 1 to 10, of a joined session, for the
    configured contract and the connected account. *)
Theorem guess_encrypts_a_valid_number env (o : Oracle) s c :
  In (ERequest c) (events (run o (handleGuess env s) s)) -> guess_call env s c.
Proof.
  apply run_only_calls. apply guess_calls; unfold guess_call; cbn; auto 10.
  - intros acct A J V. repeat split; auto.
    apply invalidGuess_spec. exact V.
  - eapply only_calls_weaken; [|apply refresh_only_refresh_calls].
    intros c' H. pose proof H as [R _].
    destruct c'; cbn in R; try discriminate; cbn; auto 10.
Qed.

(** X7. Without a client, an account or a configured contract a refresh
    makes no call and writes no message: it puts the session cells back to
    their initial values and leaves the text of the guess, the busy flags
    and the status as they were. *)
Theorem refresh_without_prerequisites env (o : Oracle) s :
  account env = None \/ publicClient env = false \/
  isContractConfigured env = false ->
  run o (refreshPlayerData env) s = (Returned tt, cleared s, []).
Proof.
  intros H. unfold refreshPlayerData.
  assert (E : run o clearPlayerData s = (Returned tt, cleared s, []))
    by reflexivity.
  destruct (account env) as [acct|]; [|exact E].
  destruct H as [H | [H | H]]; [discriminate| |]; rewrite H;
    rewrite ?orb_true_r; exact E.
Qed.

Lemma with_hasJoined_same s : with_hasJoined (hasJoined s) s = s.
Proof. destruct s; reflexivity. Qed.
Lemma with_round_same s : with_round (round s) s = s.
Proof. destruct s; reflexivity. Qed.
Lemma with_feedbackCode_same s : with_feedbackCode (feedbackCode s) s = s.
Proof. destruct s; reflexivity. Qed.
Lemma with_lastDecryptedCipher_same s :
  with_lastDecryptedCipher (lastDecryptedCipher s) s = s.
Proof. destruct s; reflexivity. Qed.

Section RefreshTwice.

Variable env : Env.
Variable acct : string.
Hypothesis connected : account env = Some acct.
Hypothesis client : publicClient env = true.
Hypothesis configured : isContractConfigured env = true.

Lemma refreshed_fields (o : Oracle) s j r l :
  reads_resolved env acct o j r l ->
  let s1 := final (run o (refreshPlayerData env) s) in
  hasJoined s1 = j /\ round s1 = Number_of_bigint r /\
  encryptedResult s1 = l /\
  (j = false -> feedbackCode s1 = None /\ lastDecryptedCipher s1 = None).
Proof.
  intros R s1. subst s1.
  rewrite (run_refresh_resolved env acct connected client configured
             o s j r l R).
  unfold final. cbn [fst snd].
  pose proof (update_frame l (with_round (Number_of_bigint r)
                                (with_hasJoined j s))) as (F1 & F2 & F3).
  destruct j; cbn; cbn in F1, F2, F3; repeat split; auto; discriminate.
Qed.

(** X8. A refresh is idempotent: run again with the same answers from the
    contract, it changes nothing of the state the first one left, and makes
    its three reads only (no status is written the second time). *)
Theorem refresh_twice_is_refresh_once (o : Oracle) s j r l :
  reads_resolved env acct o j r l ->
  let s1 := final (run o (refreshPlayerData env) s) in
  run o (refreshPlayerData env) s1 =
    (Returned tt, s1, refresh_reads env acct).
Proof.
  intros R s1.
  destruct (refreshed_fields o s j r l R) as (F1 & F2 & F3 & FB).
  fold s1 in F1, F2, F3, FB.
  rewrite (run_refresh_resolved env acct connected client configured
             o s1 j r l R).
  rewrite <- F1, <- F2, with_hasJoined_same, with_round_same.
  rewrite update_same by exact F3. cbn [fst snd]. rewrite app_nil_r.
  destruct (hasJoined s1) eqn:J; [reflexivity|].
  destruct FB as [A B]; [congruence|].
  rewrite <- A, with_feedbackCode_same, <- B, with_lastDecryptedCipher_same.
  reflexivity.
Qed.

End RefreshTwice.

Lemma run_try_catch_returns {A} (o : Oracle) (p : Prog A) h s :
  never_throws p -> run o (try_catch p h) s = run o p s.
Proof.
  revert s. induction p as [a|e|f k IH|c k IH]; cbn; intros s N.
  - reflexivity.
  - contradiction.
  - destruct (f s) as [s1 ev]. rewrite IH by exact N. reflexivity.
  - rewrite IH by apply N. reflexivity.
Qed.

Lemma run_finally_set {A} (o : Oracle) (p : Prog A) f s :
  run o (finally p (set f)) s =
    (completion (run o p s), f (final (run o p s)), events (run o p s)).
Proof.
  revert s. induction p as [a|e|g k IH|c k IH]; cbn; intros s.
  - reflexivity.
  - reflexivity.
  - destruct (g s) as [s1 ev]. rewrite IH.
    destruct (run o k s1) as [[r s2] ev']. reflexivity.
  - rewrite IH. destruct (run o (k (o c)) s) as [[r s1] ev]. reflexivity.
Qed.

Lemma run_refresh_then (o : Oracle) env h f s :
  run o (finally (try_catch (refreshPlayerData env) h) (set f)) s =
    (Returned tt, f (final (run o (refreshPlayerData env) s)),
     events (run o (refreshPlayerData env) s)).
Proof.
  rewrite run_finally_set, run_try_catch_returns by apply refresh_never_throws.
  rewrite (returns_unit o _ s (refresh_never_throws env)). reflexivity.
Qed.

Ltac no_reads :=
  let c := fresh "c" in let H := fresh "H" in
  intros c H; cbn in H;
  repeat (destruct H as [H|H]; [try discriminate; injection H as <-; reflexivity|]);
  contradiction.

Section Join.

Variable env : Env.
Variable acct : string.
Hypothesis connected : account env = Some acct.
Hypothesis configured : isContractConfigured env = true.

(** X9. A join that fails (no signer, the signer promise, the transaction
    or its confirmation rejected) leaves the session, the feedback and the
    text of the guess as they were, lowers the busy flag, shows the message
    of the error (the fallback text when the rejection is no [Error]), logs
    it, and reads nothing from the contract. *)
Theorem failed_join_keeps_the_session (o : Oracle) s e :
  join_fails env o e ->
  let out := run o (handleJoin env) s in
  session_kept s (final out) /\
  isJoining (final out) = false /\
  statusMessage (final out) = Some (message_or e MSG_JOIN_FAILED) /\
  In (EConsoleError "Join transaction failed" e) (events out) /\
  (forall c, In (ERequest c) (events out) -> is_read c = false).
Proof.
  intros F. unfold handleJoin, session_kept. rewrite connected, configured.
  cbn -[refreshPlayerData].
  destruct F as [[S ->] | [S | [S [T | (tx & T & W)]]]];
    rewrite S; cbn -[refreshPlayerData];
    try (rewrite T; cbn -[refreshPlayerData]);
    try (rewrite W; cbn -[refreshPlayerData]);
    (repeat split; auto 8; no_reads).
Qed.

Hypothesis client : publicClient env = true.


End Join.

Section GuessOutcome.

Variable env : Env.
Variable acct : string.
Hypothesis connected : account env = Some acct.
Hypothesis engine : instance env = true.
Hypothesis configured : isContractConfigured env = true.

(** X11. A valid guess that fails (no signer, the signer promise, the
    encryption, the transaction or its confirmation rejected) keeps the
    text of the guess, the session and the feedback, lowers the busy flag,
    shows the message of the error, logs it and reads nothing from the
    contract. *)
Theorem failed_guess_keeps_the_text (o : Oracle) s e :
  hasJoined s = true ->
  valid_guess (guessValue s) ->
  guess_fails env acct (guessNumber s) o e ->
  let out := run o (handleGuess env s) s in
  session_kept s (final out) /\
  isGuessing (final out) = false /\
  statusMessage (final out) = Some (message_or e MSG_GUESS_FAILED) /\
  In (EConsoleError "Guess transaction failed" e) (events out) /\
  (forall c, In (ERequest c) (events out) -> is_read c = false).
Proof.
  intros J V F. apply invalidGuess_spec in V. fold (guessNumber s) in V.
  unfold handleGuess, session_kept.
  rewrite connected, configured, J, V, engine. cbn -[refreshPlayerData].
  destruct F as [[S ->] | [S | [S [T | (hs & pf & T & [W | (tx & W & Z)])]]]];
    rewrite S; cbn -[refreshPlayerData];
    try (rewrite T; cbn -[refreshPlayerData]);
    try (rewrite W; cbn -[refreshPlayerData]);
    try (rewrite Z; cbn -[refreshPlayerData]);
    (repeat split; auto 8; no_reads).
Qed.

Hypothesis client : publicClient env = true.

(** X12. A confirmed guess empties the text of the guess and lowers the
    busy flag; it sends the first handle of the encrypted input with its
    proof; the session shows what the refresh read, and if the reads fail
    the session and the feedback stay under the message of the confirmed
    guess. *)
Theorem confirmed_guess_empties_the_text (o : Oracle) s handles proof :
  hasJoined s = true ->
  valid_guess (guessValue s) ->
  guess_confirmed env acct (guessNumber s) o handles proof ->
  let out := run o (handleGuess env s) s in
  guessValue (final out) = [] /\
  isGuessing (final out) = false /\
  In (ERequest (SendSubmitGuess (contractAddress env) (hd_error handles) proof))
     (events out) /\
  (forall j r l, reads_resolved env acct o j r l ->
     hasJoined (final out) = j /\
     round (final out) = Number_of_bigint r /\
     encryptedResult (final out) = l) /\
  (read_rejected env acct o ->
     hasJoined (final out) = hasJoined s /\
     round (final out) = round s /\
     encryptedResult (final out) = encryptedResult s /\
     feedback_kept s (final out) /\
     statusMessage (final out) = Some MSG_GUESSED).
Proof.
  intros J V (S & T & tx & W & Z).
  apply invalidGuess_spec in V. fold (guessNumber s) in V.
  unfold handleGuess, feedback_kept.
  rewrite connected, configured, J, V, engine. cbn -[refreshPlayerData].
  rewrite S. cbn -[refreshPlayerData]. rewrite T. cbn -[refreshPlayerData].
  rewrite W. cbn -[refreshPlayerData]. rewrite Z. cbn -[refreshPlayerData].
  change (setIsGuessing false) with (set (with_isGuessing false)).
  rewrite run_refresh_then. cbn -[refreshPlayerData].
  set (s0 := with_guessValue [] _).
  destruct (reads_total env acct o) as [(j & r & l & R) | R].
  - rewrite (run_refresh_resolved env acct connected client configured
               o s0 j r l R).
    unfold final, events. cbn [fst snd].
    set (s1 := with_round _ _).
    pose proof (update_frame l s1) as (V1 & V2 & V3).
    assert (G : guessValue (fst (updateEncryptedResult l s1)) = []).
    { unfold updateEncryptedResult.
      destruct (differs _ _); [destruct (_ && _)|]; reflexivity. }
    assert (NR : ~ read_rejected env acct o).
    { destruct R as (Q1 & Q2 & Q3).
      intros [[e H]|[[e H]|[e H]]]; congruence. }
    split; [|split; [|split; [|split]]].
    + destruct j; cbn; exact G.
    + destruct j; reflexivity.
    + cbn. auto 8.
    + intros j' r' l' (R1 & R2 & R3). destruct R as (Q1 & Q2 & Q3).
      assert (j' = j) by congruence. assert (r' = r) by congruence.
      assert (l' = l) by congruence. subst j' r' l'.
      destruct j; cbn; cbn in V1, V2, V3; auto.
    + intros H. contradiction.
  - destruct (run_refresh_rejected env acct connected client configured
                o s0 R) as [e ->].
    unfold final, events. cbn.
    split; [|split; [|split; [|split]]]; auto 8.
    intros j r l (R1 & R2 & R3).
    destruct R as [[e' H]|[[e' H]|[e' H]]]; congruence.
Qed.

End GuessOutcome.

Section DecryptOutcome.

Variable env : Env.
Variable acct : string.
Hypothesis connected : account env = Some acct.
Hypothesis engine : instance env = true.
Hypothesis configured : isContractConfigured env = true.

(** X13. A decryption that fails before or at the authority keeps the
    session and the feedback, lowers the busy flag and shows the message of
    the error; refused before the signature is there, it never asks the
    authority. *)
Theorem refused_decrypt_keeps_the_feedback (o : Oracle) s cipher e :
  isDecrypting s = false ->
  (signature_refused env o e ->
     let out := run o (decryptCiphertext env s cipher) s in
     session_kept s (final out) /\
     isDecrypting (final out) = false /\
     statusMessage (final out) = Some (message_or e MSG_DECRYPT_FAILED) /\
     (forall c, In (ERequest c) (events out) -> is_userDecrypt c = false)) /\
  (decrypt_answers env acct o cipher true (Rejected e) ->
     let out := run o (decryptCiphertext env s cipher) s in
     session_kept s (final out) /\
     isDecrypting (final out) = false /\
     statusMessage (final out) = Some (message_or e MSG_DECRYPT_FAILED)).
Proof.
  intros B. unfold session_kept. split.
  - intros (pk & sk & now & eip & A1 & A2 & A3 & F).
    unfold decryptCiphertext. rewrite connected, engine, configured, B.
    cbn. rewrite A1. cbn. rewrite A2. cbn. rewrite A3. cbn.
    destruct F as [[S ->] | [S | [S T]]]; rewrite S; cbn;
      try (rewrite T; cbn); (repeat split; auto 8; no_reads).
  - intros (pk & sk & now & eip & sig & A1 & A2 & A3 & A4 & A5 & A6).
    unfold decryptCiphertext. rewrite connected, engine, configured, B.
    cbn. rewrite A1. cbn. rewrite A2. cbn. rewrite A3. cbn. rewrite A4. cbn.
    rewrite A5. cbn. rewrite A6. cbn. repeat split; auto.
Qed.

End DecryptOutcome.

Lemma trimStart_black s : starts_black (trimStart s).
Proof.
  induction s as [|c s IH]; cbn; [exact I|].
  destruct (is_white c) eqn:W; [exact IH | exact W].
Qed.

Lemma trimStart_of_black s : starts_black s -> trimStart s = s.
Proof. destruct s as [|c s]; cbn; [reflexivity|]. intros ->. reflexivity. Qed.

Lemma trimStart_split s :
  exists ws, s = ws ++ trimStart s /\ forallb is_white ws = true.
Proof.
  induction s as [|c s (ws & E & W)]; cbn.
  - exists []. auto.
  - destruct (is_white c) eqn:Wc.
    + exists (c :: ws). cbn. rewrite Wc, W. split; [congruence | reflexivity].
    + exists []. auto.
Qed.

Lemma trimEnd_split s :
  exists ws, s = trimEnd s ++ ws /\ forallb is_white ws = true.
Proof.
  destruct (trimStart_split (rev s)) as (ws & E & W).
  exists (rev ws). split.
  - unfold trimEnd. rewrite <- rev_app_distr, <- E, rev_involutive. reflexivity.
  - rewrite forallb_forall in *. intros x H. apply W. apply in_rev. exact H.
Qed.

Lemma trimEnd_black s : starts_black s -> starts_black (trimEnd s).
Proof.
  intros B. destruct (trimEnd_split s) as (ws & E & W).
  destruct (trimEnd s) as [|c t]; [exact I|].
  rewrite E in B. exact B.
Qed.

Lemma trimEnd_idem s : trimEnd (trimEnd s) = trimEnd s.
Proof.
  unfold trimEnd. rewrite rev_involutive.
  rewrite (trimStart_of_black _ (trimStart_black (rev s))). reflexivity.
Qed.

Lemma trim_idem s : trim (trim s) = trim s.
Proof.
  unfold trim.
  rewrite (trimStart_of_black (trimEnd (trimStart s)))
    by (apply trimEnd_black, trimStart_black).
  apply trimEnd_idem.
Qed.

(** X14. [Number] skips the white space that [trim] removes: the guess is
    valid exactly when the number of the untrimmed text is an integer from
    1 to 10, and trimming twice is trimming once. *)
Theorem trim_before_Number_is_redundant (v : jsstr) :
  trim (trim v) = trim v /\
  Number (trim v) = Number v /\
  (valid_guess v <-> exists n : Z, to_int (Number v) = Some n /\ (1 <= n <= 10)%Z).
Proof.
  assert (E : Number (trim v) = Number v)
    by (unfold Number; rewrite trim_idem; reflexivity).
  split; [apply trim_idem|]. split; [exact E|].
  unfold valid_guess. rewrite E. reflexivity.
Qed.

(** X15. [interpretResult] has a text for the codes 1, 2, 3 and 4 and for
    no other number, so the feedback panel is shown exactly when a feedback
    code from 1 to 4 is stored. *)
Theorem feedback_panel_shows_codes_1_to_4 (s : State) :
  (forall x : number,
     interpretResult x <> None <->
     exists n : Z, to_int x = Some n /\ (1 <= n <= 4)%Z) /\
  (feedbackMessage s <> None <->
   exists code n, feedbackCode s = Some code /\ to_int code = Some n /\
                  (1 <= n <= 4)%Z).
Proof.
  assert (A : forall x : number,
     interpretResult x <> None <->
     exists n : Z, to_int x = Some n /\ (1 <= n <= 4)%Z).
  { intros x. unfold interpretResult. destruct (to_int x) as [n|].
    - destruct n as [|p|p].
      + split; [congruence | intros (n & [= <-] & H); lia].
      + destruct p as [[p|p|]|[p|p|]|];
          try (split; [congruence | intros (n & [= <-] & H); lia]);
          try (split; [intros _; eexists; split; [reflexivity | lia]
                      | discriminate]).
        destruct p;
          try (split; [congruence | intros (n & [= <-] & H); lia]);
          try (split; [intros _; eexists; split; [reflexivity | lia]
                      | discriminate]).
      + split; [congruence | intros (n & [= <-] & H); lia].
    - split; [congruence | intros (n & H & _); discriminate]. }
  split; [exact A|].
  unfold feedbackMessage. destruct (feedbackCode s) as [code|].
  - rewrite A. split.
    + intros (n & H1 & H2). exists code, n. auto.
    + intros (c & n & [= <-] & H1 & H2). exists n. auto.
  - split; [congruence | intros (c & n & H & _); discriminate].
Qed.

Section Exact.

Local Open Scope Z_scope.

Lemma odd_times_pow2 (x n k : Z) :
  0 <= k -> 2 * x + 1 = n * 2 ^ k -> k = 0.
Proof.
  intros Hk E. destruct (Z.eq_dec k 0) as [|NZ]; [assumption|]. exfalso.
  replace k with (Z.succ (k - 1)) in E by lia.
  rewrite Z.pow_succ_r in E by lia.
  replace (n * (2 * 2 ^ (k - 1))) with (2 * (n * 2 ^ (k - 1))) in E by ring.
  lia.
Qed.

Lemma even_times_pow2 (x n k : Z) :
  0 < k -> 2 * x = n * 2 ^ k -> x = n * 2 ^ (k - 1).
Proof.
  intros Hk E.
  replace k with (Z.succ (k - 1)) in E by lia.
  rewrite Z.pow_succ_r in E by lia.
  replace (n * (2 * 2 ^ (k - 1))) with (2 * (n * 2 ^ (k - 1))) in E by ring.
  lia.
Qed.

Lemma normalize_pos_exact p : forall e k n,
  0 <= k -> Zpos p = n * 2 ^ k ->
  let '(p', e') := normalize_pos p e in
  e + k <= e' /\ Zpos p' * 2 ^ (e' - e - k) = n.
Proof.
  induction p as [q IH|q IH|]; intros e k n Hk E; cbn [normalize_pos].
  - rewrite Pos2Z.inj_xI in E.
    assert (k = 0) by (eapply odd_times_pow2; eassumption).
    subst k. replace (e - e - 0) with 0 by lia.
    rewrite Z.pow_0_r, Z.mul_1_r in *. rewrite Pos2Z.inj_xI. lia.
  - rewrite Pos2Z.inj_xO in E.
    destruct (Z.eq_dec k 0) as [->|NZ].
    + specialize (IH (e + 1) 0 (Zpos q)).
      destruct (normalize_pos q (e + 1)) as [p' e'].
      destruct IH as [L V]; [lia | rewrite Z.pow_0_r; lia |].
      split; [lia|].
      replace (e' - e - 0) with (Z.succ (e' - (e + 1) - 0)) by lia.
      rewrite Z.pow_succ_r by lia. rewrite Z.pow_0_r, Z.mul_1_r in E.
      rewrite <- E, <- V. ring.
    + specialize (IH (e + 1) (k - 1) n).
      destruct (normalize_pos q (e + 1)) as [p' e'].
      destruct IH as [L V]; [lia| apply even_times_pow2; [lia | exact E] |].
      split; [lia|].
      replace (e' - e - k) with (e' - (e + 1) - (k - 1)) by lia. exact V.
  - assert (k = 0) by (apply (odd_times_pow2 0 n k Hk); exact E).
    subst k. replace (e - e - 0) with 0 by lia.
    rewrite Z.pow_0_r, Z.mul_1_r in *. lia.
Qed.

Lemma mk_finite_exact neg n k :
  0 < n -> 0 <= k ->
  to_int (mk_finite neg (n * 2 ^ k) (- k)) = Some ((if neg then -1 else 1) * n).
Proof.
  intros Hn Hk. unfold mk_finite.
  assert (P : 0 < n * 2 ^ k) by (apply Z.mul_pos_pos; [lia | apply Z.pow_pos_nonneg; lia]).
  destruct (n * 2 ^ k) as [|p|p] eqn:E; try lia.
  pose proof (normalize_pos_exact p (- k) k n Hk (eq_sym E)) as H.
  destruct (normalize_pos p (- k)) as [p' e']. destruct H as [L V].
  unfold to_int. replace (0 <=? e') with true by (symmetry; apply Z.leb_le; lia).
  replace (e' - - k - k) with e' in V by lia. rewrite V. reflexivity.
Qed.

Lemma Number_of_bigint_exact (b : Z) :
  Z.abs b < 2 ^ 53 -> to_int (Number_of_bigint b) = Some b.
Proof.
  intros B. unfold Number_of_bigint.
  destruct (Z.eqb_spec b 0) as [->|NZ]; [reflexivity|].
  set (n := Z.abs b). assert (Hn : 0 < n) by (subst n; lia).
  pose proof (Z.log2_spec n Hn) as [L1 L2].
  pose proof (Z.log2_nonneg n) as L0.
  assert (L53 : Z.log2 n < 53).
  { apply Z.log2_lt_pow2; [exact Hn | exact B]. }
  unfold round_double, floor_log2_ratio.
  change (Z.log2 1) with 0. rewrite Z.sub_0_r.
  replace (0 <=? Z.log2 n) with true by (symmetry; apply Z.leb_le; lia).
  rewrite Z.mul_1_l.
  replace (2 ^ Z.log2 n <=? n) with true by (symmetry; apply Z.leb_le; lia).
  rewrite Z.max_l by lia.
  set (e := Z.log2 n - 52). assert (He : -52 <= e <= 0) by (subst e; lia).
  assert (M : forall m, 0 < m ->
    (let r := m mod 1 in
     let up := (1 <? 2 * r) || ((1 =? 2 * r) && Z.odd (m / 1)) in
     if up then m / 1 + 1 else m / 1) = m).
  { intros m Hm. cbn zeta. rewrite Z.mod_1_r, Z.div_1_r. reflexivity. }
  destruct (Z.leb_spec 0 e) as [E0|E0].
  - assert (e = 0) by lia.
    replace (2 ^ e) with 1 by (rewrite H; reflexivity).
    rewrite Z.mul_1_l. rewrite Z.mod_1_r, Z.div_1_r. cbn [Z.mul Z.ltb Z.eqb orb andb Z.compare].
    replace (971 <? e) with false by (symmetry; apply Z.ltb_ge; lia).
    replace (e =? 971) with false by (symmetry; apply Z.eqb_neq; lia).
    cbn [orb andb].
    rewrite H. pose proof (mk_finite_exact (b <? 0) n 0 Hn (Z.le_refl 0)) as X.
    rewrite Z.pow_0_r, Z.mul_1_r in X. change (- 0) with 0 in X. rewrite X.
    f_equal. subst n. destruct (Z.ltb_spec b 0); lia.
  - rewrite Z.mod_1_r, Z.div_1_r. cbn [Z.mul Z.ltb Z.eqb orb andb Z.compare].
    replace (971 <? e) with false by (symmetry; apply Z.ltb_ge; lia).
    replace (e =? 971) with false by (symmetry; apply Z.eqb_neq; lia).
    cbn [orb andb].
    pose proof (mk_finite_exact (b <? 0) n (- e) Hn ltac:(lia)) as X.
    rewrite Z.opp_involutive in X. rewrite X.
    f_equal. subst n. destruct (Z.ltb_spec b 0); lia.
Qed.

End Exact.

Lemma account_truthy env acct :
  account env = Some acct -> truthy_opt (address env) = true.
Proof.
  unfold account. destruct (address env) as [a|]; [|discriminate].
  cbn. destruct (truthy a); [reflexivity | discriminate].
Qed.

Lemma truthy_account env :
  truthy_opt (address env) = true -> exists acct, account env = Some acct.
Proof.
  unfold account. destruct (address env) as [a|]; [|discriminate].
  cbn. intros ->. eauto.
Qed.

Section Round.

Variable env : Env.
Variable acct : string.
Hypothesis connected : account env = Some acct.
Hypothesis client : publicClient env = true.
Hypothesis configured : isContractConfigured env = true.

(** X16. A round below 2^53 is stored exactly: the [Number] of the bigint
    the contract returned is that integer. *)
Theorem refresh_shows_the_round_exactly (o : Oracle) s j r l :
  reads_resolved env acct o j r l ->
  (0 <= r < 2 ^ 53)%Z ->
  to_int (round (final (run o (refreshPlayerData env) s))) = Some r.
Proof.
  intros R B.
  destruct (refreshed_fields env acct connected client configured
              o s j r l R) as (_ & E & _).
  rewrite E. apply Number_of_bigint_exact. lia.
Qed.

End Round.

(** X17. What a button disables, its handler does not refuse: an enabled
    join button starts the join; an enabled guess button starts the guess
    unless the text is invalid or the engine is absent; an enabled decrypt
    button decrypts the stored handle, which is not the zero ciphertext,
    and is silent only if the engine is absent. *)
Theorem enabled_buttons_pass_the_guards env (o : Oracle) s :
  (joinDisabled env s = false ->
     exists rest, events (run o (handleJoin env) s) =
       EStatus MSG_JOIN_START :: ERequest ResolveSigner :: rest) /\
  (guessDisabled env s = false ->
     let out := run o (handleGuess env s) s in
     events out = [EStatus MSG_INVALID_GUESS] \/
     events out = [EStatus MSG_ENGINE_OFFLINE] \/
     exists rest, events out =
       EStatus MSG_GUESS_START :: ERequest ResolveSigner :: rest) /\
  (decryptDisabled env s = false ->
     exists cipher,
       encryptedResult s = Some cipher /\
       cipher <> ZERO_CIPHERTEXT /\
       isDecrypting s = false /\
       manualDecrypt env s = decryptCiphertext env s cipher /\
       (instance env = false ->
          silent s (run o (manualDecrypt env s) s)) /\
       (instance env = true ->
          exists rest, events (run o (manualDecrypt env s) s) =
            EStatus MSG_DECRYPT_START :: ERequest GenerateKeypair :: rest)).
Proof.
  split; [|split].
  - unfold joinDisabled. intros D.
    apply orb_false_iff in D. destruct D as [D C].
    apply orb_false_iff in D. destruct D as [D _].
    apply orb_false_iff in D. destruct D as [_ A].
    apply negb_false_iff in A, C.
    destruct (truthy_account env A) as [acct Ac].
    unfold handleJoin. rewrite Ac, C. cbn -[refreshPlayerData].
    destruct (run o _ _) as [[r s1] ev]. cbn. eauto.
  - unfold guessDisabled. intros D.
    apply orb_false_iff in D. destruct D as [D C].
    apply orb_false_iff in D. destruct D as [D _].
    apply orb_false_iff in D. destruct D as [D J].
    apply orb_false_iff in D. destruct D as [_ A].
    apply negb_false_iff in A, C, J.
    destruct (truthy_account env A) as [acct Ac].
    unfold handleGuess. rewrite Ac, C, J. cbn [negb].
    destruct (invalidGuess (guessNumber s)); [left; reflexivity|].
    destruct (instance env); cbn [negb]; [|right; left; reflexivity].
    right. right. cbn -[refreshPlayerData].
    destruct (run o _ _) as [[r s1] ev]. cbn. eauto.
  - unfold decryptDisabled. intros D.
    apply orb_false_iff in D. destruct D as [D C].
    apply orb_false_iff in D. destruct D as [D A].
    apply orb_false_iff in D. destruct D as [D Z].
    apply orb_false_iff in D. destruct D as [B T].
    apply negb_false_iff in A, C, Z, T.
    destruct (truthy_account env A) as [acct Ac].
    destruct (encryptedResult s) as [cipher|] eqn:E; [|discriminate].
    cbn in T. apply differs_spec in Z.
    assert (NZ : cipher <> ZERO_CIPHERTEXT) by congruence.
    assert (M : manualDecrypt env s = decryptCiphertext env s cipher).
    { unfold manualDecrypt. rewrite E, T. cbn [negb orb].
      destruct (String.eqb_spec cipher ZERO_CIPHERTEXT); [contradiction|].
      rewrite C. reflexivity. }
    exists cipher. repeat split; auto.
    + rewrite M. unfold decryptCiphertext. rewrite Ac, H. reflexivity.
    + rewrite M. unfold decryptCiphertext. rewrite Ac, H. reflexivity.
    + intros I. rewrite M. unfold decryptCiphertext. rewrite Ac, I, C, B.
      cbn. destruct (run o _ _) as [[r s1] ev]. cbn. eauto.
Qed.

Section StatusEffect.

Variable env : Env.
Variable acct : string.
Hypothesis connected : account env = Some acct.
Hypothesis configured : isContractConfigured env = true.

Lemma run_statusEffect_awaiting (o : Oracle) s h :
  encryptedResult s = Some h -> h <> EmptyString -> h <> ZERO_CIPHERTEXT ->
  lastDecryptedCipher s <> Some h ->
  run o (statusEffect env s) s =
    (Returned tt, with_statusMessage (Some MSG_AWAITING_DECRYPT) s,
     [EStatus MSG_AWAITING_DECRYPT]).
Proof.
  intros E NE NZ NL. unfold statusEffect.
  rewrite E, (account_truthy env acct connected), configured.
  assert (T : truthy_opt (Some h) = true) by (destruct h; [congruence | reflexivity]).
  rewrite T.
  replace (differs (Some h) (Some ZERO_CIPHERTEXT)) with true
    by (symmetry; apply differs_spec; congruence).
  replace (differs (Some h) (lastDecryptedCipher s)) with true
    by (symmetry; apply differs_spec; congruence).
  reflexivity.
Qed.

Hypothesis client : publicClient env = true.
Hypothesis engine : instance env = true.

(** X18. The status effect, run after a render in which the handle or the
    last decrypted cipher changed: after a refresh that read a new handle
    it replaces the message of the refresh by its own; after a decryption
    of the stored handle it keeps the message of the decryption; without a
    handle, or with the zero ciphertext, it writes nothing. *)
Theorem status_effect_after_refresh_and_decrypt (o : Oracle) s :
  (forall j r h,
     reads_resolved env acct o j r (Some h) ->
     h <> EmptyString -> h <> ZERO_CIPHERTEXT ->
     encryptedResult s <> Some h ->
     let s1 := final (run o (refreshPlayerData env) s) in
     statusMessage s1 = Some MSG_RESULT_READY /\
     run o (afterRender env s s1) s1 =
       (Returned tt, with_statusMessage (Some MSG_AWAITING_DECRYPT) s1,
        [EStatus MSG_AWAITING_DECRYPT])) /\
  (forall cipher response raw,
     isDecrypting s = false ->
     encryptedResult s = Some cipher ->
     decrypt_answers env acct o cipher true (Resolved response) ->
     rawValue response cipher = Some raw ->
     isInteger (Number raw) = true ->
     let s1 := final (run o (decryptCiphertext env s cipher) s) in
     statusMessage s1 = Some MSG_DECODED /\
     silent s1 (run o (afterRender env s s1) s1)) /\
  (forall prev,
     encryptedResult s = None \/ encryptedResult s = Some ZERO_CIPHERTEXT ->
     silent s (run o (afterRender env prev s) s)).
Proof.
  split; [|split].
  - intros j r h R NE NZ NP s1.
    assert (S1 : s1 = final (run o (refreshPlayerData env) s)) by reflexivity.
    rewrite (run_refresh_resolved env acct connected client configured
               o s j r (Some h) R) in S1.
    unfold final in S1. cbn [fst snd] in S1.
    unfold updateEncryptedResult in S1.
    change (encryptedResult (with_round (Number_of_bigint r)
                               (with_hasJoined j s)))
      with (encryptedResult s) in S1.
    replace (differs (encryptedResult s) (Some h)) with true in S1
      by (symmetry; apply differs_spec; exact NP).
    assert (T : truthy_opt (Some h) = true)
      by (destruct h; [congruence | reflexivity]).
    rewrite T in S1.
    replace (differs (Some h) (Some ZERO_CIPHERTEXT)) with true in S1
      by (symmetry; apply differs_spec; congruence).
    cbn [andb fst] in S1.
    assert (E1 : encryptedResult s1 = Some h) by (rewrite S1; destruct j; reflexivity).
    assert (L1 : lastDecryptedCipher s1 = None) by (rewrite S1; destruct j; reflexivity).
    split; [rewrite S1; destruct j; reflexivity|].
    unfold afterRender, statusEffectDue. rewrite E1.
    replace (differs (encryptedResult s) (Some h)) with true
      by (symmetry; apply differs_spec; exact NP).
    cbn [orb].
    apply (run_statusEffect_awaiting o s1 h E1 NE NZ). rewrite L1. discriminate.
  - intros cipher response raw B E A RV Int s1.
    assert (S1 : s1 = with_isDecrypting false
                   (with_statusMessage (Some MSG_DECODED)
                      (with_lastDecryptedCipher (Some cipher)
                         (with_feedbackCode (Some (Number raw))
                            (with_statusMessage (Some MSG_DECRYPT_START)
                               (with_isDecrypting true s)))))).
    { subst s1.
      destruct A as (pk & sk & now & eip & sig & A1 & A2 & A3 & A4 & A5 & A6).
      unfold decryptCiphertext. rewrite connected, engine, configured, B.
      cbn. rewrite A1. cbn. rewrite A2. cbn. rewrite A3. cbn. rewrite A4.
      cbn. rewrite A5. cbn. rewrite A6. cbn. rewrite RV. cbn. rewrite Int.
      reflexivity. }
    split; [rewrite S1; reflexivity|].
    unfold afterRender, statusEffect.
    assert (E1 : encryptedResult s1 = Some cipher) by (rewrite S1; exact E).
    assert (L1 : lastDecryptedCipher s1 = Some cipher) by (rewrite S1; reflexivity).
    rewrite E1, L1.
    replace (differs (Some cipher) (Some cipher)) with false
      by (symmetry; apply differs_false; reflexivity).
    destruct (statusEffectDue s s1); [|split; reflexivity].
    destruct (_ || _); [split; reflexivity|].
    destruct (_ || _); split; reflexivity.
  - intros prev H. unfold afterRender, statusEffect.
    destruct (statusEffectDue prev s); [|split; reflexivity].
    destruct H as [-> | ->]; cbn; split; reflexivity.
Qed.

End StatusEffect.

Section AtRestFacts.

Variable I : State -> Prop.

Lemma advance_rests (o : Oracle) p s s' ev t :
  rests I p s -> advance o p s = (s', ev, t) ->
  I s' /\
  match t with
  | Some (Paused_at c k) => forall o' s'', I s'' -> rests I (k o') s''
  | None => True
  end.
Proof.
  revert s s' ev t. induction p as [a|e|f k IH|c k IH]; cbn; intros s s' ev t R E.
  - injection E as <- <- <-. auto.
  - injection E as <- <- <-. auto.
  - destruct (f s) as [s1 ev1]. cbn in R.
    destruct (advance o k s1) as [[s2 ev2] t2] eqn:Ea.
    injection E as <- <- <-. apply (IH _ _ _ _ R Ea).
  - destruct (is_async c).
    + injection E as <- <- <-. exact R.
    + destruct (advance o (k (o c)) s) as [[s1 ev1] t1] eqn:Ea.
      injection E as <- <- <-. apply (IH _ _ _ _ _ (R (o c)) Ea).
Qed.

Lemma at_rest_step env a (o : Oracle) sys :
  (forall s, I s ->
     match dispatch env a s with
     | Some (_, p) => rests I p s
     | None => True
     end) ->
  at_rest I sys -> at_rest I (step env a o sys).
Proof.
  intros Hd [Il Ft]. unfold step. specialize (Hd (live sys) Il).
  destruct (dispatch env a (live sys)) as [[op p]|].
  - destruct (advance o p (live sys)) as [[s ev] t] eqn:Ea.
    destruct (advance_rests o p _ _ _ _ Hd Ea) as [Is K].
    split; [exact Is|]. cbn [pending]. apply Forall_app. split; [exact Ft|].
    destruct t as [[c k]|]; cbn; [|constructor].
    constructor; [|constructor]. exact K.
  - destruct a; try (split; assumption).
    destruct (nth_error (pending sys) i) as [[op [c k]]|] eqn:N;
      [|split; assumption].
    assert (Tk : task_rests I (op, Paused_at c k)).
    { rewrite Forall_forall in Ft. apply Ft. eapply nth_error_In. exact N. }
    destruct (advance o (k (o c)) (live sys)) as [[s ev] t] eqn:Ea.
    destruct (advance_rests o _ _ _ _ _ (Tk (o c) (live sys) Il) Ea) as [Is K].
    split; [exact Is|]. cbn [pending]. apply Forall_app.
    split; [apply Forall_remove_nth; exact Ft|].
    destruct t as [[c' k']|]; cbn; [|constructor].
    constructor; [|constructor]. exact K.
Qed.

End AtRestFacts.

Ltac paired_tac :=
  repeat first
    [ progress cbn
    | match goal with
      | |- True => exact I
      | H : negb ?x = false |- ?x = true => apply negb_false_iff; exact H
      | |- _ /\ _ => split
      | |- forall _ : Outcome _, _ => let o := fresh "o" in intro o; destruct o
      | |- forall _, _ => intro
      | H : feedback_paired ?s |- feedback_paired _ =>
          solve [unfold feedback_paired in *; cbn;
                 try unfold updateEncryptedResult; cbn;
                 repeat match goal with
                        | |- context [if ?b then _ else _] => destruct b; cbn
                        end;
                 first [exact H | exact I | assumption
                       | apply negb_false_iff; assumption]]
      | |- context [if negb ?b then _ else _] => is_var b; destruct b
      | x : (_ * _)%type |- _ => destruct x
      | |- rests _ (if ?b then _ else _) _ => destruct b eqn:?
      | |- rests _ ?p _ =>
          match p with
          | context [if ?b then _ else _] => destruct b eqn:?
          | context [match ?x with Some _ => _ | None => _ end] =>
              destruct x eqn:?
          end
      | |- rests _ (match ?x with _ => _ end) _ => destruct x eqn:?
      end ].

Lemma refresh_rests env s :
  feedback_paired s -> rests feedback_paired (refreshPlayerData env) s.
Proof.
  intros P. unfold refreshPlayerData, clearPlayerData. paired_tac.
Qed.

Lemma join_rests env s :
  feedback_paired s -> rests feedback_paired (handleJoin env) s.
Proof.
  intros P. unfold handleJoin, refreshPlayerData, clearPlayerData. paired_tac.
Qed.

Lemma guess_rests env s0 s :
  feedback_paired s -> rests feedback_paired (handleGuess env s0) s.
Proof.
  intros P. unfold handleGuess, refreshPlayerData, clearPlayerData. paired_tac.
Qed.

Lemma decrypt_rests env s0 cipher s :
  feedback_paired s -> rests feedback_paired (decryptCiphertext env s0 cipher) s.
Proof.
  intros P. unfold decryptCiphertext. paired_tac.
Qed.

Lemma manual_rests env s0 s :
  feedback_paired s -> rests feedback_paired (manualDecrypt env s0) s.
Proof.
  intros P. unfold manualDecrypt.
  destruct (encryptedResult s0) as [c|]; [|exact P].
  destruct (_ || _); [exact P|]. destruct (negb _); [exact P|].
  apply decrypt_rests. exact P.
Qed.

(** Every action keeps the feedback paired. *)
Lemma dispatch_rests env a s :
  feedback_paired s ->
  match dispatch env a s with
  | Some (_, p) => rests feedback_paired p s
  | None => True
  end.
Proof.
  intros P. destruct a; cbn -[refreshPlayerData handleJoin handleGuess
                               decryptCiphertext manualDecrypt].
  - apply refresh_rests. exact P.
  - apply join_rests. exact P.
  - apply guess_rests. exact P.
  - apply decrypt_rests. exact P.
  - apply manual_rests. exact P.
  - destruct (joinDisabled env s); [exact P | apply join_rests; exact P].
  - destruct (guessDisabled env s); [exact P | apply guess_rests; exact P].
  - destruct (decryptDisabled env s); [exact P | apply manual_rests; exact P].
  - exact P.
  - exact I.
Qed.

(** X19. Whatever is clicked and in whatever order the pending calls are
    answered, each time the handlers are at rest the feedback code and the
    last decrypted cipher are stored or absent together, and a stored code
    is an integer. *)
Theorem feedback_stays_paired env sched s0 :
  feedback_paired s0 ->
  feedback_paired (live (exec env sched (start s0))).
Proof.
  intros P.
  assert (A : at_rest feedback_paired (exec env sched (start s0))).
  { assert (S : at_rest feedback_paired (start s0))
      by (split; [exact P | constructor]).
    revert S. generalize (start s0).
    induction sched as [|[a o] sched IH]; intros sys S; cbn; [exact S|].
    apply IH. apply at_rest_step; [|exact S].
    intros s Ps. apply dispatch_rests. exact Ps. }
  apply A.
Qed.

Lemma exec_cons env a o sched sys :
  exec env ((a, o) :: sched) sys = exec env sched (step env a o sys).
Proof. reflexivity. Qed.

Lemma if_pair {A B} (b : bool) (x y : A) (u v : B) :
  (if b then (x, u) else (y, v)) = (if b then x else y, if b then u else v).
Proof. destruct b; reflexivity. Qed.

Ltac take_step :=
  rewrite exec_cons;
  match goal with
  | |- context [step ?e ?a ?o ?sys] =>
      let H := fresh "H" in
      eassert (H : step e a o sys = _);
      [ unfold step, dispatch; cbn [live pending trace nth_error]
      | rewrite H; clear H ]
  end.

Section Overtaking.

Variable env : Env.
Variable acct : string.
Hypothesis connected : account env = Some acct.
Hypothesis client : publicClient env = true.
Hypothesis engine : instance env = true.
Hypothesis loaded : isZamaLoading env = false.
Hypothesis configured : isContractConfigured env = true.

(** X20. A decryption answered after a guess has replaced the handle
    stores its result all the same: the state then holds the new handle
    together with the feedback and the last decrypted cipher of the old
    one. *)
Theorem late_decryption_stores_stale_feedback
    (o : Oracle) s0 h1 h2 r response raw handles proof :
  hasJoined s0 = true ->
  isGuessing s0 = false ->
  isDecrypting s0 = false ->
  encryptedResult s0 = Some h1 ->
  h1 <> EmptyString -> h1 <> ZERO_CIPHERTEXT -> h2 <> h1 ->
  valid_guess (guessValue s0) ->
  decrypt_answers env acct o h1 true (Resolved response) ->
  rawValue response h1 = Some raw ->
  isInteger (Number raw) = true ->
  guess_confirmed env acct (guessNumber s0) o handles proof ->
  reads_resolved env acct o true r (Some h2) ->
  let sys := exec env (guess_overtakes_decrypt o) (start s0) in
  pending sys = [] /\
  encryptedResult (live sys) = Some h2 /\
  lastDecryptedCipher (live sys) = Some h1 /\
  feedbackCode (live sys) = Some (Number raw).
Proof.
  intros J G B E NE NZ N21 V
    (pk & sk & now & eip & sig & A1 & A2 & A3 & A4 & A5 & A6) RV Int
    (S & En & tx & Sd & W) (R1 & R2 & R3).
  apply invalidGuess_spec in V. fold (guessNumber s0) in V.
  assert (T : truthy_opt (address env) = true)
    by (apply (account_truthy env acct connected)).
  assert (Th : truthy h1 = true) by (destruct h1; [congruence | reflexivity]).
  assert (Dz : differs (Some h1) (Some ZERO_CIPHERTEXT) = true)
    by (apply differs_spec; congruence).
  assert (Ez : String.eqb h1 ZERO_CIPHERTEXT = false)
    by (apply String.eqb_neq; exact NZ).
  assert (D21 : differs (Some h1) (Some h2) = true)
    by (apply differs_spec; congruence).
  eassert (X : exec env (guess_overtakes_decrypt o) (start s0) = _).
  { unfold guess_overtakes_decrypt, start.
    (* the click on the decrypt button *)
    take_step.
    { unfold decryptDisabled. rewrite B, E, T, configured, Dz. cbn [truthy_opt].
      rewrite Th. cbn [negb orb].
      unfold manualDecrypt. rewrite E, Th, Ez, configured. cbn [negb orb].
      unfold decryptCiphertext. rewrite connected, engine, configured, B.
      cbn. rewrite A1. cbn. rewrite A2. cbn. rewrite A3. cbn. reflexivity. }
    take_step.
    { rewrite A4. cbn. reflexivity. }
    take_step.
    { rewrite A5. cbn. reflexivity. }
    (* the click on the guess button *)
    take_step.
    { unfold guessDisabled. cbn. rewrite G, T, J, loaded, configured. cbn.
      match goal with
      | |- context [handleGuess env ?s] =>
          change (handleGuess env s) with (handleGuess env s0)
      end.
      unfold handleGuess. rewrite connected, configured, J. cbn [negb].
      rewrite V, engine. cbn -[refreshPlayerData]. reflexivity. }
    take_step.
    { rewrite S. cbn -[refreshPlayerData]. reflexivity. }
    take_step.
    { rewrite En. cbn -[refreshPlayerData]. reflexivity. }
    take_step.
    { rewrite Sd. cbn -[refreshPlayerData]. reflexivity. }
    take_step.
    { rewrite W. unfold refreshPlayerData.
      rewrite connected, client, configured. cbn. reflexivity. }
    take_step.
    { rewrite R1. cbn. reflexivity. }
    take_step.
    { rewrite R2. cbn. reflexivity. }
    take_step.
    { rewrite R3. cbn. unfold updateEncryptedResult. cbn. rewrite E, D21. cbn.
      rewrite if_pair. cbn. reflexivity. }
    (* the answer of the authority *)
    take_step.
    { rewrite A6. cbn. rewrite RV. cbn. rewrite Int. cbn. reflexivity. }
    cbn [exec]. reflexivity. }
  rewrite X. cbn [live pending].
  repeat split; try reflexivity.
  all: destruct (truthy h2 && _); reflexivity.
Qed.

End Overtaking.

(* ================================================================== *)
(** ** The further properties at work *)

Lemma guess_of_answers j r l rs s :
  guess_confirmed env0 ACCOUNT0 (guessNumber s) (answers j r l true rs)
    ["0xE1"] "0xF1".
Proof. split; [reflexivity|]. split; [reflexivity|]. exists "0x72". split; reflexivity. Defined.

Lemma valid_guess_5 : valid_guess (lit "5").
Proof. exists 5%Z. split; [reflexivity | lia]. Defined.

(** A join whose every call fails returns with its busy flag down. *)
Lemma handlers_return_and_release_witness :
  completion (run unreachable (handleJoin env0) initial) = Returned tt /\
  isJoining (final (run unreachable (handleJoin env0) initial)) = false.
Proof.
  pose proof (handlers_return_and_release env0 unreachable initial HANDLE1)
    as (_ & R & _ & _ & _ & F & _).
  exact (conj R (F eq_refl)).
Defined.

(** The second read of a refresh is [getRound] of the configured contract
    for the connected account. *)
Lemma refresh_only_reads_witness :
  refresh_call env0 (ReadGetRound "0xC0DE" ACCOUNT0).
Proof.
  apply (refresh_only_reads env0 (answers true 1 None true None) initial).
  right. left. reflexivity.
Defined.

(** The request a decryption of the first handle sends to the authority. *)
Lemma decrypt_asks_for_its_cipher_only_witness :
  decrypt_call env0 HANDLE1
    (UserDecrypt HANDLE1 "0xC0DE" "priv" "pub" "51" ["0xC0DE"] ACCOUNT0
       1700000000%Z "10").
Proof.
  apply (decrypt_asks_for_its_cipher_only env0
           (answers true 1 (Some HANDLE1) true (Some [(HANDLE1, lit "2")]))
           pendingResult).
  vm_compute. do 6 right. left. reflexivity.
Defined.

(** The decrypt button of a session with a result asks for a key pair:
    the stored handle is the first one. *)
Lemma manualDecrypt_skips_the_sentinel_witness :
  exists cipher,
    encryptedResult pendingResult = Some cipher /\
    cipher <> EmptyString /\ cipher <> ZERO_CIPHERTEXT /\
    isContractConfigured env0 = true /\
    decrypt_call env0 cipher GenerateKeypair.
Proof.
  apply (manualDecrypt_skips_the_sentinel env0
           (answers true 1 (Some HANDLE1) true (Some [(HANDLE1, lit "2")]))
           pendingResult).
  vm_compute. right. left. reflexivity.
Defined.

(** The transaction of a join goes to the configured contract. *)
Lemma join_sends_joinGame_only_witness :
  join_call env0 (SendJoinGame "0xC0DE").
Proof.
  apply (join_sends_joinGame_only env0 (answers true 1 None true None) initial).
  vm_compute. do 2 right. left. reflexivity.
Defined.

(** The guess 5 of a joined session is encrypted as the number 5. *)
Lemma guess_encrypts_a_valid_number_witness :
  guess_call env0 readyToGuess (EncryptInput "0xC0DE" ACCOUNT0 (of_int 5)).
Proof.
  apply (guess_encrypts_a_valid_number env0 (answers true 1 None true None)).
  vm_compute. do 2 right. left. reflexivity.
Defined.

(** Without a wallet a refresh clears the decrypted session and calls
    nothing. *)
Lemma refresh_without_prerequisites_witness :
  run unreachable (refreshPlayerData disconnected) revealed =
    (Returned tt, cleared revealed, []).
Proof.
  apply (refresh_without_prerequisites disconnected unreachable revealed).
  left. reflexivity.
Defined.

(** A second refresh of a session with a result announces nothing. *)
Lemma refresh_twice_is_refresh_once_witness :
  let o := answers true 3 (Some HANDLE1) true None in
  let s1 := final (run o (refreshPlayerData env0) initial) in
  run o (refreshPlayerData env0) s1 =
    (Returned tt, s1, refresh_reads env0 ACCOUNT0).
Proof.
  intros o.
  exact (refresh_twice_is_refresh_once env0 ACCOUNT0 eq_refl eq_refl eq_refl
           o initial true 3%Z (Some HANDLE1) (reads_of_answers _ _ _ _ _)).
Defined.

(** A reverted join keeps the feedback 2 and shows the revert. *)
Lemma failed_join_keeps_the_session_witness :
  let o := refusing (answers true 1 (Some HANDLE1) true None) in
  let out := run o (handleJoin env0) revealed in
  feedbackCode (final out) = Some (of_int 2) /\
  statusMessage (final out) = Some "execution reverted".
Proof.
  intros o out.
  assert (F : join_fails env0 o (ErrorObj "execution reverted")).
  { right. right. split; [reflexivity|]. left. reflexivity. }
  pose proof (failed_join_keeps_the_session env0 ACCOUNT0 eq_refl eq_refl
                o revealed _ F) as ((_ & _ & _ & K & _) & _ & M & _).
  exact (conj K M).
Defined.


(** A reverted guess keeps the text 5 and shows the revert. *)
Lemma failed_guess_keeps_the_text_witness :
  let o := refusing (answers true 1 None true None) in
  let out := run o (handleGuess env0 readyToGuess) readyToGuess in
  guessValue (final out) = lit "5" /\
  statusMessage (final out) = Some "execution reverted".
Proof.
  intros o out.
  assert (F : guess_fails env0 ACCOUNT0 (guessNumber readyToGuess) o
                (ErrorObj "execution reverted")).
  { right. right. split; [reflexivity|]. right.
    exists ["0xE1"], "0xF1". split; [reflexivity|]. left. reflexivity. }
  pose proof (failed_guess_keeps_the_text env0 ACCOUNT0 eq_refl eq_refl
                eq_refl o readyToGuess _ eq_refl valid_guess_5 F)
    as ((_ & _ & _ & _ & _ & K) & _ & M & _).
  exact (conj K M).
Defined.

(** A confirmed guess empties the text and shows the handle read. *)
Lemma confirmed_guess_empties_the_text_witness :
  let o := answers true 1 (Some HANDLE1) true None in
  let out := run o (handleGuess env0 readyToGuess) readyToGuess in
  guessValue (final out) = [] /\ encryptedResult (final out) = Some HANDLE1.
Proof.
  intros o out.
  pose proof (confirmed_guess_empties_the_text env0 ACCOUNT0 eq_refl eq_refl
                eq_refl eq_refl o readyToGuess ["0xE1"] "0xF1" eq_refl
                valid_guess_5 (guess_of_answers _ _ _ _ _))
    as (K & _ & _ & R & _).
  destruct (R true 1%Z (Some HANDLE1) (reads_of_answers _ _ _ _ _))
    as (_ & _ & E).
  exact (conj K E).
Defined.

(** A refused signature keeps the feedback 2 and shows the refusal. *)
Lemma refused_decrypt_keeps_the_feedback_witness :
  let o := refusing (answers true 1 (Some HANDLE1) true None) in
  let out := run o (decryptCiphertext env0 revealed HANDLE1) revealed in
  feedbackCode (final out) = Some (of_int 2) /\
  statusMessage (final out) = Some "User rejected the request.".
Proof.
  intros o out.
  assert (F : signature_refused env0 o (ErrorObj "User rejected the request.")).
  { exists "pub", "priv", 1700000000000%Z,
      {| domain := "domain"; types_UserDecryptRequestVerification := "types";
         message := "message" |}.
    repeat split. right. right. split; reflexivity. }
  pose proof (proj1 (refused_decrypt_keeps_the_feedback env0 ACCOUNT0 eq_refl
                eq_refl eq_refl o revealed HANDLE1 _ eq_refl) F)
    as ((_ & _ & _ & K & _) & _ & M & _).
  exact (conj K M).
Defined.

(** The round 3 is stored as 3. *)
Lemma refresh_shows_the_round_exactly_witness :
  to_int (round (final (run (answers true 3 (Some HANDLE1) true None)
                          (refreshPlayerData env0) initial))) = Some 3%Z.
Proof.
  apply (refresh_shows_the_round_exactly env0 ACCOUNT0 eq_refl eq_refl eq_refl
           _ initial true 3%Z (Some HANDLE1) (reads_of_answers _ _ _ _ _)).
  lia.
Defined.

(** With a wallet connected the join button is enabled and starts the
    join. *)
Lemma enabled_buttons_pass_the_guards_witness :
  exists rest,
    events (run unreachable (handleJoin env0) initial) =
      EStatus MSG_JOIN_START :: ERequest ResolveSigner :: rest.
Proof.
  exact (proj1 (enabled_buttons_pass_the_guards env0 unreachable initial)
           eq_refl).
Defined.

(** The first result of a session: the refresh announces it and the
    effect then asks for the decryption. *)
Lemma status_effect_after_refresh_and_decrypt_witness :
  let o := answers true 1 (Some HANDLE1) true None in
  let s1 := final (run o (refreshPlayerData env0) initial) in
  statusMessage s1 = Some MSG_RESULT_READY /\
  run o (afterRender env0 initial s1) s1 =
    (Returned tt, with_statusMessage (Some MSG_AWAITING_DECRYPT) s1,
     [EStatus MSG_AWAITING_DECRYPT]).
Proof.
  intros o.
  refine (proj1 (status_effect_after_refresh_and_decrypt env0 ACCOUNT0
            eq_refl eq_refl eq_refl eq_refl o initial)
            true 1%Z HANDLE1 (reads_of_answers _ _ _ _ _) _ _ _);
    discriminate.
Defined.

(** The feedback 2 and its cipher stay paired through a decryption
    overtaken by a guess. *)
Lemma feedback_stays_paired_witness :
  let o := answers true 1 (Some HANDLE2) true (Some [(HANDLE1, lit "2")]) in
  feedback_paired
    (live (exec env0 (guess_overtakes_decrypt o) (start revealed))).
Proof.
  intros o.
  apply (feedback_stays_paired env0 (guess_overtakes_decrypt o) revealed).
  reflexivity.
Defined.

(** The feedback 2 of the first handle is stored although the second
    handle has replaced it. *)
Lemma late_decryption_stores_stale_feedback_witness :
  let o := answers true 1 (Some HANDLE2) true (Some [(HANDLE1, lit "2")]) in
  let sys := exec env0 (guess_overtakes_decrypt o) (start nextGuess) in
  pending sys = [] /\
  encryptedResult (live sys) = Some HANDLE2 /\
  lastDecryptedCipher (live sys) = Some HANDLE1 /\
  feedbackCode (live sys) = Some (Number (lit "2")).
Proof.
  intros o.
  refine (late_decryption_stores_stale_feedback env0 ACCOUNT0
            eq_refl eq_refl eq_refl eq_refl eq_refl
            o nextGuess HANDLE1 HANDLE2 1%Z (Some [(HANDLE1, lit "2")])
            (lit "2") ["0xE1"] "0xF1"
            eq_refl eq_refl eq_refl eq_refl _ _ _ valid_guess_5
            (decrypt_of_answers _ _ _ _ _ _) eq_refl eq_refl
            (guess_of_answers _ _ _ _ _) (reads_of_answers _ _ _ _ _));
    discriminate.
Defined.
